(** * Notification fan-out and bill-listing pagination

    A shallow embedding of two parts of the application:

    - [functions/src/notifications/publishNotifications.ts]: the document
      trigger that derives notification fields from a topic event, looks up
      the subscribers and stages one notification per subscriber in a batch;
    - [components/db/bills.ts]: the reducer behind [useBills], which keeps
      the cursor list, the current page and the sort mode of the bill
      listing.

    The first part is effectful (queries, console output, a batch that is
    committed at the end, exceptions) and is written in a small state and
    exception monad over an explicit [World].  The second part is a pure
    function on a state record. *)

From Stdlib Require Import ZArith Ascii String List Lia.
From stdpp Require Import base decidable option list strings.

Local Open Scope string_scope.
Local Open Scope list_scope.
Local Open Scope Z_scope.

(* ===================================================================== *)
(** ** Part 1: [publishNotifications.ts] *)
(* ===================================================================== *)

(** A field of a Firestore document as the trigger reads it: the fields used
    here hold strings, and a field that the document does not have reads as
    [undefined]. *)
Inductive JSValue : Type :=
| undefined
| JSString (s : string).

#[global] Instance JSValue_eq_dec : EqDecision JSValue.
Proof. solve_decision. Defined.

(** [`${v}`]: interpolation into a template literal. *)
Definition template (v : JSValue) : string :=
  match v with
  | undefined => "undefined"
  | JSString s => s
  end.

(** [a !== b] on such values. *)
Definition strictNe (a b : JSValue) : bool := negb (bool_decide (a = b)).

Definition Timestamp : Type := Z.

(** One entry of a bill's history; only [Action] and [Branch] are read. *)
Record BillHistoryAction : Type := {
  Action : string;
  Branch : string
}.

(** The data of an event document, [snapshot.after.data()].  The trigger
    casts it to [BillNotification | OrgNotification] without a check, so the
    embedding keeps every field the code reads and lets each be absent. *)
Module Entity.
Record t : Type := {
  type : JSValue;
  billCourt : JSValue;
  billId : JSValue;
  billHistory : option (list BillHistoryAction);
  orgId : JSValue;
  testimonyContent : JSValue;
  testimonyUser : JSValue;
  updateTime : option Timestamp
}.
End Entity.

(** Modelled from the spec: the module [./types], which declares
    [BillNotification] and [OrgNotification], is missing.  The data model
    gives the Bill variant a court, a bill id, an ordered history of actions
    and an update timestamp, and nothing else. *)
Definition BillNotification (court billId : string)
    (history : list BillHistoryAction) (time : Timestamp) : Entity.t :=
  {| Entity.type := JSString "bill";
     Entity.billCourt := JSString court;
     Entity.billId := JSString billId;
     Entity.billHistory := Some history;
     Entity.orgId := undefined;
     Entity.testimonyContent := undefined;
     Entity.testimonyUser := undefined;
     Entity.updateTime := Some time |}.

(** Modelled from the spec: the module [./types] is missing.  The data model
    gives the Org variant an org id, a testimony text, a testimony author and
    an update timestamp; the second subscriber query of the fan-out is built
    from the event's own court and bill id, which [createNotificationFields]
    reads off either variant, so the Org variant carries those too. *)
Definition OrgNotification (orgId content user court billId : string)
    (time : Timestamp) : Entity.t :=
  {| Entity.type := JSString "org";
     Entity.billCourt := JSString court;
     Entity.billId := JSString billId;
     Entity.billHistory := None;
     Entity.orgId := JSString orgId;
     Entity.testimonyContent := JSString content;
     Entity.testimonyUser := JSString user;
     Entity.updateTime := Some time |}.

(** The [notification] object inside the derived fields. *)
Module Notification.
Record t : Type := {
  bodyText : JSValue;
  header : JSValue;
  court : JSValue;
  id : JSValue;
  subheader : JSValue;
  timestamp : option Timestamp;
  type : JSValue;
  delivered : bool
}.
End Notification.

(** The object returned by [createNotificationFields]. *)
Module Fields.
Record t : Type := {
  topicName : string;
  uid : JSValue;
  notification : Notification.t;
  createdAt : Timestamp
}.
End Fields.

(** The data of a document of the collection group
    [activeTopicSubscriptions]; the trigger reads [topicName] (in the query),
    [uid] and [type]. *)
Module Subscription.
Record t : Type := {
  topicName : JSValue;
  uid : JSValue;
  type : JSValue
}.
End Subscription.

(** [{ ...doc.data(), type: "bill" }] *)
Definition withTypeBill (d : Subscription.t) : Subscription.t :=
  {| Subscription.topicName := Subscription.topicName d;
     Subscription.uid := Subscription.uid d;
     Subscription.type := JSString "bill" |}.

(** A staged [batch.set(docRef, data)]: [docRef] is a new document, with a
    generated identifier, of the collection [collectionPath]. *)
Record WriteOp : Type := {
  collectionPath : string;
  data : Fields.t
}.

(** What the function throws. *)
Inductive Error : Type :=
| InvalidHistoryLength (n : nat)   (* Error(`Invalid history length: ${n}`) *)
| InvalidEntity (entity : Entity.t) (* Error(`Invalid entity: ${entity}`) *)
| TypeError                         (* a property read on undefined *)
| InvalidCollectionPath (path : string)
                                    (* db.collection(path) refuses the path *)
| UndefinedFieldValue.              (* batch.set refuses an undefined value *)

(** Lines written to the console. *)
Inductive LogLine : Type :=
| LogInvalidHistoryLength (n : nat)
| LogInvalidEntity (entity : Entity.t)
| LogInvalidTopicData
| LogTopicType (type : JSValue)
| LogFields (fields : Fields.t)
| LogPushing (uid : JSValue).

(** Everything an invocation reads or changes. *)
Record World : Type := {
  (** the documents of [collectionGroup("activeTopicSubscriptions")] *)
  activeTopicSubscriptions : list Subscription.t;
  (** the topic names queried so far, oldest first *)
  queries : list string;
  (** the operations staged in [batch] and not yet committed *)
  batch : list WriteOp;
  (** the documents written by committed batches, oldest first *)
  written : list WriteOp;
  (** the console output, oldest first *)
  console : list LogLine;
  (** what [Timestamp.now()] returns *)
  clock : Timestamp;
  (** the Firestore setting of that name (off unless the application turns
      it on): whether [undefined] property values are dropped on a write
      instead of being refused *)
  ignoreUndefinedProperties : bool
}.

(** *** The monad: state passing with exceptions *)

Inductive Result (A : Type) : Type :=
| Returned (a : A)
| Thrown (e : Error).
Arguments Returned {A} a.
Arguments Thrown {A} e.

Definition M (A : Type) : Type := World -> Result A * World.

Definition ret {A} (a : A) : M A := fun w => (Returned a, w).

Definition bind {A B} (m : M A) (k : A -> M B) : M B :=
  fun w =>
    match m w with
    | (Returned a, w') => k a w'
    | (Thrown e, w') => (Thrown e, w')
    end.

Declare Scope js_scope.
Delimit Scope js_scope with js.
Notation "x ← y ; z" := (bind y (fun x => z))
  (at level 20, y at level 100, z at level 200, only parsing) : js_scope.
Notation "y ;; z" := (bind y (fun _ => z))
  (at level 100, z at level 200, only parsing, right associativity) : js_scope.
Local Open Scope js_scope.

Definition throw {A} (e : Error) : M A := fun w => (Thrown e, w).

(** [console.log(..)] / [console.error(..)] *)
Definition log (line : LogLine) : M unit :=
  fun w =>
    (Returned tt,
     {| activeTopicSubscriptions := activeTopicSubscriptions w;
        queries := queries w;
        batch := batch w;
        written := written w;
        console := console w ++ [line];
        clock := clock w;
        ignoreUndefinedProperties := ignoreUndefinedProperties w |}).

(** [Timestamp.now()] *)
Definition now : M Timestamp := fun w => (Returned (clock w), w).

(** [db.collectionGroup("activeTopicSubscriptions")
       .where("topicName", "==", name).get()] *)
Definition matchesTopic (name : string) (d : Subscription.t) : bool :=
  bool_decide (Subscription.topicName d = JSString name).

Definition whereTopicName (name : string) : M (list Subscription.t) :=
  fun w =>
    (Returned (List.filter (matchesTopic name) (activeTopicSubscriptions w)),
     {| activeTopicSubscriptions := activeTopicSubscriptions w;
        queries := queries w ++ [name];
        batch := batch w;
        written := written w;
        console := console w;
        clock := clock w;
        ignoreUndefinedProperties := ignoreUndefinedProperties w |}).

(** [db.batch()]: a new, empty batch. *)
Definition newBatch : M unit :=
  fun w =>
    (Returned tt,
     {| activeTopicSubscriptions := activeTopicSubscriptions w;
        queries := queries w;
        batch := [];
        written := written w;
        console := console w;
        clock := clock w;
        ignoreUndefinedProperties := ignoreUndefinedProperties w |}).

(** [db.collection(path)] takes a non-empty path without "//" that has an
    odd number of segments, and throws on any other. *)
Fixpoint containsDoubleSlash (path : string) : bool :=
  match path with
  | String c1 ((String c2 _) as rest) =>
      (Ascii.eqb c1 "/" && Ascii.eqb c2 "/") || containsDoubleSlash rest
  | _ => false
  end.

Fixpoint countSegments (inSegment : bool) (path : string) : nat :=
  match path with
  | EmptyString => 0%nat
  | String c rest =>
      if Ascii.eqb c "/" then countSegments false rest
      else ((if inSegment then 0 else 1) + countSegments true rest)%nat
  end.

Definition validCollectionPath (path : string) : bool :=
  negb (String.eqb path "")
  && negb (containsDoubleSlash path)
  && Nat.odd (countSegments false path).

(** [batch.set(docRef, data)] refuses [data] with a property that is
    [undefined], at any depth, unless [ignoreUndefinedProperties] is on. *)
Definition allDefined (fields : Fields.t) : bool :=
  let n := Fields.notification fields in
  negb (bool_decide (Fields.uid fields = undefined))
  && negb (bool_decide (Notification.bodyText n = undefined))
  && negb (bool_decide (Notification.header n = undefined))
  && negb (bool_decide (Notification.court n = undefined))
  && negb (bool_decide (Notification.id n = undefined))
  && negb (bool_decide (Notification.subheader n = undefined))
  && bool_decide (is_Some (Notification.timestamp n))
  && negb (bool_decide (Notification.type n = undefined)).

(** [batch.set(db.collection(path).doc(), fields)]: the collection
    reference is made first, then the operation is staged. *)
Definition batchSet (path : string) (fields : Fields.t) : M unit :=
  fun w =>
    if negb (validCollectionPath path) then
      (Thrown (InvalidCollectionPath path), w)
    else if negb (ignoreUndefinedProperties w || allDefined fields) then
      (Thrown UndefinedFieldValue, w)
    else
      (Returned tt,
       {| activeTopicSubscriptions := activeTopicSubscriptions w;
          queries := queries w;
          batch := batch w ++ [{| collectionPath := path; data := fields |}];
          written := written w;
          console := console w;
          clock := clock w;
          ignoreUndefinedProperties := ignoreUndefinedProperties w |}).

(** [batch.commit()]: all staged operations are applied together.  The
    trigger pushes the returned promise on a list and does not await it; the
    commit is taken to complete. *)
Definition batchCommit : M unit :=
  fun w =>
    (Returned tt,
     {| activeTopicSubscriptions := activeTopicSubscriptions w;
        queries := queries w;
        batch := [];
        written := written w ++ batch w;
        console := console w;
        clock := clock w;
        ignoreUndefinedProperties := ignoreUndefinedProperties w |}).

(** [array.forEach(f)] *)
Fixpoint forEach {A} (l : list A) (f : A -> M unit) : M unit :=
  match l with
  | [] => ret tt
  | x :: l' => f x ;; forEach l' f
  end.

(** *** [createNotificationFields] *)

(** The [switch] on [entity.type]: the topic name, the body text and the
    subheader. *)
Definition switchOnType (entity : Entity.t)
  : M (string * JSValue * JSValue) :=
  if bool_decide (Entity.type entity = JSString "bill") then
    let topicName :=
      "bill-" +:+ template (Entity.billCourt entity) +:+ "-"
              +:+ template (Entity.billId entity) in
    match Entity.billHistory entity with
    | None => throw TypeError
    | Some billHistory =>
        if bool_decide (Z.of_nat (length billHistory) < 1) then
          log (LogInvalidHistoryLength (length billHistory)) ;;
          throw (InvalidHistoryLength (length billHistory))
        else
          match billHistory !! (length billHistory - 1)%nat with
          | None => throw TypeError
          | Some lastHistoryAction =>
              ret (topicName,
                   JSString (Action lastHistoryAction),
                   JSString (Branch lastHistoryAction))
          end
    end
  else if bool_decide (Entity.type entity = JSString "org") then
    ret ("org-" +:+ template (Entity.orgId entity),
         Entity.testimonyContent entity,
         Entity.testimonyUser entity)
  else
    log (LogInvalidEntity entity) ;;
    throw (InvalidEntity entity).

Definition createNotificationFields (entity : Entity.t) : M Fields.t :=
  r ← switchOnType entity;
  let '(topicName, bodyText, subheader) := r in
  createdAt ← now;
  ret {| Fields.topicName := topicName;
         Fields.uid := JSString "";
         Fields.notification :=
           {| Notification.bodyText := bodyText;
              Notification.header := Entity.billId entity;
              Notification.court := Entity.billCourt entity;
              Notification.id := Entity.billId entity;
              Notification.subheader := subheader;
              Notification.timestamp := Entity.updateTime entity;
              Notification.type := Entity.type entity;
              Notification.delivered := false |};
         Fields.createdAt := createdAt |}.

(** *** [handleNotifications] and [publishNotifications] *)

(** The topic of the second query,
    [`bill-${notification.court}-${notification.id}`]. *)
Definition billTopic (notificationFields : Fields.t) : string :=
  "bill-"
    +:+ template (Notification.court (Fields.notification notificationFields))
    +:+ "-"
    +:+ template (Notification.id (Fields.notification notificationFields)).

(** The object built for one subscription in the last [forEach]. *)
Definition newNotificationFields (notificationFields : Fields.t)
    (subscription : Subscription.t) : Fields.t :=
  let n := Fields.notification notificationFields in
  {| Fields.topicName := Fields.topicName notificationFields;
     Fields.uid := Subscription.uid subscription;
     Fields.notification :=
       {| Notification.bodyText := Notification.bodyText n;
          Notification.header := Notification.header n;
          Notification.court := Notification.court n;
          Notification.id := Notification.id n;
          Notification.subheader := Notification.subheader n;
          Notification.timestamp := Notification.timestamp n;
          Notification.type := Subscription.type subscription;
          Notification.delivered := Notification.delivered n |};
     Fields.createdAt := Fields.createdAt notificationFields |}.

Definition feedPath (uid : JSValue) : string :=
  "users/" +:+ template uid +:+ "/userNotificationFeed".

Definition handleNotifications (topic : Entity.t) : M unit :=
  notificationFields ← createNotificationFields topic;
  log (LogFields notificationFields) ;;
  topicNameSnapshot ← whereTopicName (Fields.topicName notificationFields);
  billSnapshot ←
    (if strictNe (Notification.type (Fields.notification notificationFields))
                 (JSString "bill")
     then docs ← whereTopicName (billTopic notificationFields);
          ret (Some docs)
     else ret None);
  let combinedSnapshots :=
    topicNameSnapshot ++
    match billSnapshot with
    | Some docs => map withTypeBill docs
    | None => []
    end in
  forEach combinedSnapshots (fun subscription =>
    log (LogPushing (Subscription.uid subscription)) ;;
    batchSet (feedPath (Subscription.uid subscription))
             (newNotificationFields notificationFields subscription)).

(** The trigger body; [after] is [snapshot?.after.data()], absent when the
    event document was deleted. *)
Definition publishNotifications (after : option Entity.t) : M unit :=
  match after with
  | None => log LogInvalidTopicData
  | Some topic =>
      newBatch ;;
      log (LogTopicType (Entity.type topic)) ;;
      handleNotifications topic ;;
      batchCommit
  end.

(* ===================================================================== *)
(** ** Part 2: [bills.ts] *)
(* ===================================================================== *)

(** A value inside a page key: one of the bill fields that [getPageKey]
    reads.  The two timestamps are optional in [Bill] and read as
    [undefined] when absent. *)
Inductive FieldValue : Type :=
| FUndefined
| FNumber (n : Z)
| FString (s : string)
| FTimestamp (t : Timestamp).

#[global] Instance FieldValue_eq_dec : EqDecision FieldValue.
Proof. solve_decision. Defined.

Definition optionalTimestamp (o : option Timestamp) : FieldValue :=
  match o with
  | Some t => FTimestamp t
  | None => FUndefined
  end.

(** The fields of [Bill] that the reducer reads through [getPageKey]. *)
Module Bill.
Record t : Type := {
  id : string;
  cosponsorCount : Z;
  testimonyCount : Z;
  nextHearingAt : option Timestamp;
  latestTestimonyAt : option Timestamp
}.
End Bill.

(** [SortOptions] *)
Module Sort.
Inductive t : Type :=
| id
| cosponsorCount
| testimonyCount
| latestTestimony
| hearingDate.

#[global] Instance eq_dec : EqDecision t.
Proof. solve_decision. Defined.
End Sort.

(** [FilterOptions] *)
Module Filter.
Inductive t : Type :=
| bill (id : string)
| primarySponsor (id : string)
| committee (id : string)
| city (name : string).
End Filter.

(** An element of [pageKeys]: [unknown[] | null | undefined]. *)
Inductive PageKey : Type :=
| KeyUndefined
| KeyNull
| Key (values : list FieldValue).

#[global] Instance PageKey_eq_dec : EqDecision PageKey.
Proof. solve_decision. Defined.

Module Action.
Inductive t : Type :=
| nextPage
| previousPage
| sort (sort : Sort.t)
| filter (filter : option Filter.t)
| onSuccess (page : list Bill.t)
| error (error : string).
End Action.

Module State.
Record t : Type := {
  sort : Sort.t;
  filter : option Filter.t;
  pageKeys : list PageKey;
  currentPageKey : PageKey;
  currentPage : Z;
  billsPerPage : Z;
  nextKey : PageKey;
  previousKey : PageKey;
  error : option string
}.
End State.

(** [initialPage] is spread into the state, so it is given as its five
    fields.  Its [pageKeys] array is shared by every state built from it;
    the reducer copies the array before its only assignment, so the shared
    one always stays [[null]]. *)
Definition initialPage_pageKeys : list PageKey := [KeyNull].
Definition initialPage_currentPage : Z := 0.
Definition initialPage_currentPageKey : PageKey := KeyNull.
Definition initialPage_nextKey : PageKey := KeyUndefined.
Definition initialPage_previousKey : PageKey := KeyUndefined.

Definition initialState : State.t :=
  {| State.pageKeys := initialPage_pageKeys;
     State.currentPage := initialPage_currentPage;
     State.currentPageKey := initialPage_currentPageKey;
     State.nextKey := initialPage_nextKey;
     State.previousKey := initialPage_previousKey;
     State.billsPerPage := 10;
     State.sort := Sort.id;
     State.filter := None;
     State.error := None |}.

(** [keys[i]]: an index outside the array, a negative one included, reads
    as [undefined]. *)
Definition index (keys : list PageKey) (i : Z) : PageKey :=
  if bool_decide (0 <= i) then default KeyUndefined (keys !! Z.to_nat i)
  else KeyUndefined.

(** [keys[i] = v]: inside the array the element is replaced; past the end
    the array grows, and the cells in between read as [undefined].  For a
    negative [i] JavaScript would add a property named [i] without touching
    the elements; the list keeps the elements only, and the reducer writes
    at [currentPage + 1], so this case needs [currentPage < -1]. *)
Definition assign (keys : list PageKey) (i : Z) (v : PageKey) : list PageKey :=
  if bool_decide (i < 0) then keys
  else
    let n := Z.to_nat i in
    if bool_decide (n < length keys)%nat then <[n := v]> keys
    else keys ++ replicate (n - length keys) KeyUndefined ++ [v].

(** lodash's [nth(array, n)]: a negative [n] counts from the end. *)
Module lodash.
Definition nth {A} (array : list A) (n : Z) : option A :=
  let n := if bool_decide (n < 0) then n + Z.of_nat (length array) else n in
  if bool_decide (0 <= n) then array !! Z.to_nat n else None.
End lodash.

Definition adjacentKeys (keys : list PageKey) (currentPage : Z)
  : PageKey * PageKey :=
  (index keys (currentPage + 1), index keys (currentPage - 1)).

Definition getPageKey (bill : Bill.t) (sort : Sort.t) : list FieldValue :=
  match sort with
  | Sort.cosponsorCount =>
      [FNumber (Bill.cosponsorCount bill); FString (Bill.id bill)]
  | Sort.hearingDate =>
      [optionalTimestamp (Bill.nextHearingAt bill); FString (Bill.id bill)]
  | Sort.id => [FString (Bill.id bill)]
  | Sort.latestTestimony =>
      [optionalTimestamp (Bill.latestTestimonyAt bill); FString (Bill.id bill)]
  | Sort.testimonyCount =>
      [FNumber (Bill.testimonyCount bill); FString (Bill.id bill)]
  end.

Definition reducer (state : State.t) (action : Action.t) : State.t :=
  match action with
  | Action.nextPage | Action.previousPage =>
      let next :=
        State.currentPage state
        + (match action with Action.nextPage => 1 | _ => -1 end) in
      let nextKey := index (State.pageKeys state) next in
      if negb (bool_decide (nextKey = KeyUndefined)) then
        let adjacent := adjacentKeys (State.pageKeys state) next in
        {| State.sort := State.sort state;
           State.filter := State.filter state;
           State.pageKeys := State.pageKeys state;
           State.currentPageKey := nextKey;
           State.currentPage := next;
           State.billsPerPage := State.billsPerPage state;
           State.nextKey := fst adjacent;
           State.previousKey := snd adjacent;
           State.error := State.error state |}
      else state
  | Action.sort sort =>
      if negb (bool_decide (sort = State.sort state)) then
        {| State.sort := sort;
           State.filter := State.filter state;
           State.pageKeys := initialPage_pageKeys;
           State.currentPageKey := initialPage_currentPageKey;
           State.currentPage := initialPage_currentPage;
           State.billsPerPage := State.billsPerPage state;
           State.nextKey := initialPage_nextKey;
           State.previousKey := initialPage_previousKey;
           State.error := State.error state |}
      else state
  | Action.onSuccess page =>
      let bill := lodash.nth page (State.billsPerPage state - 1) in
      let keys :=
        assign (State.pageKeys state) (State.currentPage state + 1)
          (match bill with
           | Some bill => Key (getPageKey bill (State.sort state))
           | None => KeyUndefined
           end) in
      let adjacent := adjacentKeys keys (State.currentPage state) in
      {| State.sort := State.sort state;
         State.filter := State.filter state;
         State.pageKeys := keys;
         State.currentPageKey := State.currentPageKey state;
         State.currentPage := State.currentPage state;
         State.billsPerPage := State.billsPerPage state;
         State.nextKey := fst adjacent;
         State.previousKey := snd adjacent;
         State.error := State.error state |}
  | Action.error error =>
      {| State.sort := State.sort state;
         State.filter := State.filter state;
         State.pageKeys := State.pageKeys state;
         State.currentPageKey := State.currentPageKey state;
         State.currentPage := State.currentPage state;
         State.billsPerPage := State.billsPerPage state;
         State.nextKey := State.nextKey state;
         State.previousKey := State.previousKey state;
         State.error := Some error |}
  | Action.filter filter =>
      {| State.sort := State.sort state;
         State.filter := filter;
         State.pageKeys := initialPage_pageKeys;
         State.currentPageKey := initialPage_currentPageKey;
         State.currentPage := initialPage_currentPage;
         State.billsPerPage := State.billsPerPage state;
         State.nextKey := initialPage_nextKey;
         State.previousKey := initialPage_previousKey;
         State.error := State.error state |}
  end.

(** What [useBills] derives from the state for the view. *)
Definition hasNextPage (state : State.t) : bool :=
  negb (bool_decide (State.nextKey state = KeyUndefined)).

Definition hasPreviousPage (state : State.t) : bool :=
  negb (bool_decide (State.previousKey state = KeyUndefined)).

Definition displayedPage (state : State.t) : Z := State.currentPage state + 1.

(** The states that [useReducer(reducer, initialState)] can hold. *)
Inductive reachable : State.t -> Prop :=
| reachable_initial : reachable initialState
| reachable_dispatch (state : State.t) (action : Action.t) :
    reachable state -> reachable (reducer state action).

(** Page index and cursors agree with the cursor list. *)
Definition invariant (state : State.t) : Prop :=
  0 <= State.currentPage state
  /\ index (State.pageKeys state) 0 = KeyNull
  /\ State.currentPageKey state
       = index (State.pageKeys state) (State.currentPage state)
  /\ State.nextKey state
       = index (State.pageKeys state) (State.currentPage state + 1)
  /\ State.previousKey state
       = index (State.pageKeys state) (State.currentPage state - 1).

(* ===================================================================== *)
(** ** Vocabulary of the statements *)
(* ===================================================================== *)

(** The result of a subscription query in world [w]. *)
Definition subscribers (w : World) (name : string) : list Subscription.t :=
  List.filter (matchesTopic name) (activeTopicSubscriptions w).

(** The batch operation staged for one element of [combinedSnapshots]. *)
Definition stage (notificationFields : Fields.t)
    (subscription : Subscription.t) : WriteOp :=
  {| collectionPath := feedPath (Subscription.uid subscription);
     data := newNotificationFields notificationFields subscription |}.

(** The subscriptions of the second query: none when it is not issued. *)
Definition companions (fields : Fields.t) (w : World) : list Subscription.t :=
  if strictNe (Notification.type (Fields.notification fields)) (JSString "bill")
  then subscribers w (billTopic fields)
  else [].

(** The queries [handleNotifications] issues after deriving [fields]. *)
Definition issued (fields : Fields.t) : list string :=
  Fields.topicName fields ::
  (if strictNe (Notification.type (Fields.notification fields))
               (JSString "bill")
   then [billTopic fields] else []).

(** The world in which [publishNotifications] calls [handleNotifications]:
    a new batch, and the event's type on the console. *)
Definition started (topic : Entity.t) (w : World) : World :=
  {| activeTopicSubscriptions := activeTopicSubscriptions w;
     queries := queries w;
     batch := [];
     written := written w;
     console := console w ++ [LogTopicType (Entity.type topic)];
     clock := clock w;
     ignoreUndefinedProperties := ignoreUndefinedProperties w |}.

(** The [type] of the notification carried by a batch operation. *)
Definition typeOf (op : WriteOp) : JSValue :=
  Notification.type (Fields.notification (data op)).

(** The world an invocation ends in. *)
Definition after {A} (m : M A) (w : World) : World := snd (m w).

(** What an invocation returns or throws. *)
Definition outcome {A} (m : M A) (w : World) : Result A := fst (m w).

(** The records the last [forEach] runs over, [combinedSnapshots]. *)
Definition combined (fields : Fields.t) (w : World) : list Subscription.t :=
  subscribers w (Fields.topicName fields)
  ++ map withTypeBill (companions fields w).

(** Whether the write for one record goes through: the feed path is one
    that [db.collection] takes, and the document has no [undefined] value
    or such values are dropped. *)
Definition deliverable (ignoreUndefined : bool) (fields : Fields.t)
    (subscription : Subscription.t) : bool :=
  validCollectionPath (feedPath (Subscription.uid subscription))
  && (ignoreUndefined
      || allDefined (newNotificationFields fields subscription)).

(** The records staged before the first write that is refused. *)
Fixpoint deliveredPrefix (ignoreUndefined : bool) (fields : Fields.t)
    (l : list Subscription.t) : list Subscription.t :=
  match l with
  | [] => []
  | subscription :: l' =>
      if deliverable ignoreUndefined fields subscription
      then subscription :: deliveredPrefix ignoreUndefined fields l'
      else []
  end.

(** What the refused write throws. *)
Definition writeError (fields : Fields.t) (subscription : Subscription.t)
  : Error :=
  if validCollectionPath (feedPath (Subscription.uid subscription))
  then UndefinedFieldValue
  else InvalidCollectionPath (feedPath (Subscription.uid subscription)).

(** How the last [forEach] ends. *)
Fixpoint forEachResult (ignoreUndefined : bool) (fields : Fields.t)
    (l : list Subscription.t) : Result unit :=
  match l with
  | [] => Returned tt
  | subscription :: l' =>
      if deliverable ignoreUndefined fields subscription
      then forEachResult ignoreUndefined fields l'
      else Thrown (writeError fields subscription)
  end.

(** Concrete inputs: a world with the given subscriptions, nothing yet
    queried, staged, written or logged, and Firestore's default setting;
    subscribers whose records carry the type of what they follow, two
    followers of the organisation whose records carry another type, and a
    follower of the bill whose record carries none. *)
Definition worldWith (subscriptions : list Subscription.t) : World :=
  {| activeTopicSubscriptions := subscriptions;
     queries := [];
     batch := [];
     written := [];
     console := [];
     clock := 0;
     ignoreUndefinedProperties := false |}.

Definition orgSubscriber : Subscription.t :=
  {| Subscription.topicName := JSString "org-42";
     Subscription.uid := JSString "u1";
     Subscription.type := JSString "org" |}.

Definition billSubscriber : Subscription.t :=
  {| Subscription.topicName := JSString "bill-House-100";
     Subscription.uid := JSString "u2";
     Subscription.type := JSString "bill" |}.

Definition followerTypedTestimony : Subscription.t :=
  {| Subscription.topicName := JSString "org-42";
     Subscription.uid := JSString "u3";
     Subscription.type := JSString "testimony" |}.

Definition followerTypedBill : Subscription.t :=
  {| Subscription.topicName := JSString "org-42";
     Subscription.uid := JSString "u4";
     Subscription.type := JSString "bill" |}.

Definition untypedBillSubscriber : Subscription.t :=
  {| Subscription.topicName := JSString "bill-House-100";
     Subscription.uid := JSString "u5";
     Subscription.type := undefined |}.

(** The event of the end-to-end scenario, on the bill House 100. *)
Definition scenarioEvent : Entity.t :=
  OrgNotification "42" "Support" "alice" "House" "100" 0.

(** An org document that names no bill. *)
Definition orgEventWithoutBill : Entity.t :=
  {| Entity.type := JSString "org";
     Entity.billCourt := undefined;
     Entity.billId := undefined;
     Entity.billHistory := None;
     Entity.orgId := JSString "42";
     Entity.testimonyContent := JSString "Support";
     Entity.testimonyUser := JSString "alice";
     Entity.updateTime := Some 0 |}.

Definition billEvent : Entity.t :=
  BillNotification "House" "100"
    [{| Action := "Reported favorably"; Branch := "House" |}] 0.

(** Concrete inputs for the listing: a bill with the given id, a page of
    ten bills ending in "H10", and the state after that page has arrived. *)
Definition billWithId (id : string) : Bill.t :=
  {| Bill.id := id;
     Bill.cosponsorCount := 3;
     Bill.testimonyCount := 1;
     Bill.nextHearingAt := None;
     Bill.latestTestimonyAt := Some 1700000000 |}.

Definition fullPage : list Bill.t :=
  map billWithId ["H1"; "H2"; "H3"; "H4"; "H5"; "H6"; "H7"; "H8"; "H9"; "H10"].

Definition shortPage : list Bill.t := map billWithId ["H11"; "H12"].

Definition firstPageLoaded : State.t :=
  reducer initialState (Action.onSuccess fullPage).

(* ===================================================================== *)
(** ** Part 2, continued: the query of [listBills] *)
(* ===================================================================== *)

(** The direction argument of [orderBy]. *)
Inductive Direction : Type :=
| asc
| desc.

#[global] Instance Direction_eq_dec : EqDecision Direction.
Proof. solve_decision. Defined.

(** [getOrderBy]: each element is the argument list of one [orderBy] call,
    a field path and, when given, a direction. *)
Definition getOrderBy (sort : Sort.t) : list (string * option Direction) :=
  match sort with
  | Sort.cosponsorCount => [("cosponsorCount", Some desc); ("id", None)]
  | Sort.id => [("id", None)]
  | Sort.latestTestimony => [("latestTestimonyAt", Some desc); ("id", None)]
  | Sort.testimonyCount => [("testimonyCount", Some desc); ("id", None)]
  | Sort.hearingDate => [("nextHearingAt", Some desc); ("id", None)]
  end.

(** [getFilter]: the argument list of one [where] call. *)
Definition getFilter (filter : Filter.t) : string * string * string :=
  match filter with
  | Filter.bill id => ("id", "==", id)
  | Filter.primarySponsor id => ("content.PrimarySponsor.Id", "==", id)
  | Filter.committee id => ("currentCommittee.id", "==", id)
  | Filter.city name => ("city", "==", name)
  end.

(** A Firestore query constraint, as built by [where], [orderBy], [limit]
    and [startAfter]. *)
Inductive QueryConstraint : Type :=
| QWhere (fieldPath opStr value : string)
| QOrderBy (fieldPath : string) (directionStr : option Direction)
| QLimit (limit : Z)
| QStartAfter (fieldValues : list FieldValue).

#[global] Instance QueryConstraint_eq_dec : EqDecision QueryConstraint.
Proof. solve_decision. Defined.

(** [orderByConstraints] in [listBills]: the [id] clause is left out when
    the filter is on the bill id. *)
Definition orderByConstraints (sort : Sort.t) (filter : option Filter.t)
  : list QueryConstraint :=
  let excludeOrderById :=
    match filter with
    | Some (Filter.bill _) => true
    | _ => false
    end in
  map (fun o => QOrderBy (fst o) (snd o))
    (List.filter
       (fun o => negb excludeOrderById || negb (String.eqb (fst o) "id"))
       (getOrderBy sort)).

(** The arguments that [listBills] passes to [nullableQuery] after
    [billsRef], in order; [None] stands for an argument that is [null] or
    [false].  The result is [None] when building them throws: spreading an
    [undefined] start key into [startAfter]. *)
Definition listBills (sort : Sort.t) (filter : option Filter.t)
    (limitCount : Z) (startAfterKey : PageKey)
  : option (list (option QueryConstraint)) :=
  let whereConstraint :=
    match filter with
    | Some filter =>
        let '(fieldPath, opStr, value) := getFilter filter in
        Some (QWhere fieldPath opStr value)
    | None => None
    end in
  match startAfterKey with
  | KeyUndefined => None
  | KeyNull =>
      Some ([whereConstraint]
            ++ map Some (orderByConstraints sort filter)
            ++ [Some (QLimit limitCount); None])
  | Key fieldValues =>
      Some ([whereConstraint]
            ++ map Some (orderByConstraints sort filter)
            ++ [Some (QLimit limitCount); Some (QStartAfter fieldValues)])
  end.

(** The call [listBills(sort, filter, billsPerPage, currentPageKey)] that
    [useBills] makes for a state. *)
Definition useBills_listBills (state : State.t)
  : option (list (option QueryConstraint)) :=
  listBills (State.sort state) (State.filter state)
    (State.billsPerPage state) (State.currentPageKey state).

(* ===================================================================== *)
(** ** Part 3: the role script *)
(* ===================================================================== *)

(** [email.split(" ")]: the pieces of [email] between spaces, empty pieces
    included; the empty string gives one empty piece. *)
Fixpoint split (email : string) : list string :=
  match email with
  | EmptyString => [""]
  | String c rest =>
      if Ascii.eqb c " "%char then "" :: split rest
      else
        match split rest with
        | piece :: pieces => String c piece :: pieces
        | [] => [String c ""]
        end
  end.

Section RoleScript.

(** [Role], the [auth] handle and [setRole] come from modules that are not
    part of these sources; [setRole] is taken as it is used, an operation on
    some store that returns or throws. *)
Context {Role Auth Store Failure : Type}.
Variable setRole : string -> Role -> Auth -> Store -> option Failure * Store.

(** [for (const email of emails) { await setRole({ email, role, auth }) }]:
    [Some failure] is a thrown exception, which ends the loop. *)
Fixpoint forEmails (emails : list string) (role : Role) (auth : Auth)
    (store : Store) : option Failure * Store :=
  match emails with
  | [] => (None, store)
  | email :: emails' =>
      match setRole email role auth store with
      | (None, store') => forEmails emails' role auth store'
      | (Some failure, store') => (Some failure, store')
      end
  end.

(** [script], on arguments that [Args.check] accepts. *)
Definition script (auth : Auth) (email : string) (role : Role)
  : Store -> option Failure * Store :=
  forEmails (split email) role auth.

End RoleScript.

(* ===================================================================== *)
(** ** Vocabulary of the further statements *)
(* ===================================================================== *)

(** [bill[fieldPath]] for the field paths that [getOrderBy] names. *)
Definition billField (bill : Bill.t) (fieldPath : string) : FieldValue :=
  if String.eqb fieldPath "id" then FString (Bill.id bill)
  else if String.eqb fieldPath "cosponsorCount"
  then FNumber (Bill.cosponsorCount bill)
  else if String.eqb fieldPath "testimonyCount"
  then FNumber (Bill.testimonyCount bill)
  else if String.eqb fieldPath "nextHearingAt"
  then optionalTimestamp (Bill.nextHearingAt bill)
  else if String.eqb fieldPath "latestTestimonyAt"
  then optionalTimestamp (Bill.latestTestimonyAt bill)
  else FUndefined.

(** Every page up to the current one has a cursor, and every cursor past
    page 0 is [undefined] or a page key taken under the current sort mode. *)
Definition cursorsKnown (state : State.t) : Prop :=
  (forall i, 0 <= i <= State.currentPage state ->
     index (State.pageKeys state) i <> KeyUndefined)
  /\ (forall i, 1 <= i ->
        index (State.pageKeys state) i = KeyUndefined
        \/ exists bill,
             index (State.pageKeys state) i
             = Key (getPageKey bill (State.sort state))).

(** The state after dispatching a sequence of actions. *)
Definition dispatchAll (state : State.t) (actions : list Action.t) : State.t :=
  fold_left reducer actions state.

(** Two worlds that differ at most in the console output. *)
Definition sameButConsole (w w' : World) : Prop :=
  activeTopicSubscriptions w' = activeTopicSubscriptions w
  /\ queries w' = queries w
  /\ batch w' = batch w
  /\ written w' = written w
  /\ clock w' = clock w
  /\ ignoreUndefinedProperties w' = ignoreUndefinedProperties w.

(** The number of spaces in a string. *)
Fixpoint spaces (s : string) : nat :=
  match s with
  | EmptyString => 0
  | String c rest => ((if Ascii.eqb c " "%char then 1 else 0) + spaces rest)%nat
  end.

(** A [setRole] for the examples: the store is the list of addresses given
    a role so far, and the address "nobody" is refused. *)
Definition recordRole (email : string) (role : bool) (auth : unit)
    (store : list (string * bool)) : option string * list (string * bool) :=
  if String.eqb email "nobody" then (Some "no such user", store)
  else (None, store ++ [(email, role)]).

(** An event document with a tag that is neither "bill" nor "org". *)
Definition testimonyEvent : Entity.t :=
  {| Entity.type := JSString "testimony";
     Entity.billCourt := JSString "House";
     Entity.billId := JSString "100";
     Entity.billHistory := None;
     Entity.orgId := undefined;
     Entity.testimonyContent := undefined;
     Entity.testimonyUser := undefined;
     Entity.updateTime := Some 0 |}.




(* ===================================================================== *)
(** ** Part 1, proofs: the notification fan-out *)
(* ===================================================================== *)

Section FanOut.

Implicit Types (w : World) (topic entity : Entity.t) (fields : Fields.t).

Lemma bind_returned {A B} (m : M A) (k : A -> M B) w a w' :
  m w = (Returned a, w') -> bind m k w = k a w'.
Proof. intros E. unfold bind. now rewrite E. Qed.

Lemma bind_thrown {A B} (m : M A) (k : A -> M B) w e w' :
  m w = (Thrown e, w') -> bind m k w = (Thrown e, w').
Proof. intros E. unfold bind. now rewrite E. Qed.

(** Running the last [forEach]: one console line per record tried and one
    staged operation per record before the first refused write; nothing
    else changes. *)
Lemma forEach_stage fields (l : list Subscription.t) w :
  forEach l (fun subscription =>
    log (LogPushing (Subscription.uid subscription)) ;;
    batchSet (feedPath (Subscription.uid subscription))
             (newNotificationFields fields subscription)) w
  = (forEachResult (ignoreUndefinedProperties w) fields l,
     {| activeTopicSubscriptions := activeTopicSubscriptions w;
        queries := queries w;
        batch :=
          batch w
          ++ map (stage fields)
               (deliveredPrefix (ignoreUndefinedProperties w) fields l);
        written := written w;
        console :=
          console w
          ++ map (fun s => LogPushing (Subscription.uid s))
               (take
                  (S (length (deliveredPrefix (ignoreUndefinedProperties w)
                                fields l))) l);
        clock := clock w;
        ignoreUndefinedProperties := ignoreUndefinedProperties w |}).
Proof.
  revert w. induction l as [|s l IH]; intros w.
  - destruct w; cbn. unfold ret. now rewrite !app_nil_r.
  - cbn [forEach forEachResult deliveredPrefix].
    unfold bind at 1. unfold bind at 1. cbn [log]. unfold batchSet.
    cbn [ignoreUndefinedProperties activeTopicSubscriptions queries batch
         written console clock].
    unfold deliverable, writeError.
    destruct (validCollectionPath (feedPath (Subscription.uid s)));
      cbn [negb andb].
    + destruct (ignoreUndefinedProperties w
                || allDefined (newNotificationFields fields s));
        cbn [negb].
      * rewrite IH. cbn. now rewrite <- !app_assoc.
      * cbn. now rewrite app_nil_r.
    + cbn. now rewrite app_nil_r.
Qed.

Lemma forEachResult_returned ignoreUndefined fields
    (l : list Subscription.t) :
  forEachResult ignoreUndefined fields l = Returned tt
  <-> forallb (deliverable ignoreUndefined fields) l = true.
Proof.
  induction l as [|s l IH]; cbn; [tauto|].
  destruct (deliverable ignoreUndefined fields s); cbn; [exact IH|].
  split; discriminate.
Qed.

Lemma forEachResult_cases ignoreUndefined fields (l : list Subscription.t) :
  (forEachResult ignoreUndefined fields l = Returned tt
   /\ deliveredPrefix ignoreUndefined fields l = l)
  \/ exists e, forEachResult ignoreUndefined fields l = Thrown e.
Proof.
  induction l as [|s l IH]; cbn; [now left|].
  destruct (deliverable ignoreUndefined fields s); [|eauto].
  destruct IH as [[-> ->]|[e ->]]; eauto.
Qed.

(** The staged records are an initial part of the records tried. *)
Lemma deliveredPrefix_lookup ignoreUndefined fields
    (l : list Subscription.t) (i : nat) s :
  deliveredPrefix ignoreUndefined fields l !! i = Some s -> l !! i = Some s.
Proof.
  revert i. induction l as [|s' l IH]; intros i; cbn; [discriminate|].
  destruct (deliverable ignoreUndefined fields s'); [|discriminate].
  destruct i as [|i]; cbn; [trivial|apply IH].
Qed.

Lemma deliveredPrefix_prefix ignoreUndefined fields
    (l : list Subscription.t) :
  exists rest, l = deliveredPrefix ignoreUndefined fields l ++ rest.
Proof.
  induction l as [|s l [rest IH]]; cbn; [now exists []|].
  destruct (deliverable ignoreUndefined fields s); [|now eexists].
  exists rest. cbn. now rewrite <- IH.
Qed.

(** A successful field derivation leaves the world as it was: the only
    console output of [createNotificationFields] precedes a [throw]. *)
Lemma createNotificationFields_world entity w fields w' :
  createNotificationFields entity w = (Returned fields, w') -> w' = w.
Proof.
  unfold createNotificationFields, switchOnType, bind, throw, ret, now, log.
  repeat case_bool_decide; repeat case_match; congruence.
Qed.

(** The derived [type] is the event's. *)
Lemma createNotificationFields_type entity w fields w' :
  createNotificationFields entity w = (Returned fields, w') ->
  Notification.type (Fields.notification fields) = Entity.type entity
  /\ Notification.court (Fields.notification fields) = Entity.billCourt entity
  /\ Notification.id (Fields.notification fields) = Entity.billId entity
  /\ Notification.header (Fields.notification fields) = Entity.billId entity.
Proof.
  unfold createNotificationFields, switchOnType, bind, throw, ret, now, log.
  repeat case_bool_decide; repeat case_match; try congruence;
    intros [= <- <-]; simplify_eq; cbn; auto.
Qed.

(** [handleNotifications] once the fields are derived: both queries are
    issued, then the writes are staged up to the first that is refused. *)
Lemma handleNotifications_run topic w fields :
  createNotificationFields topic w = (Returned fields, w) ->
  handleNotifications topic w
  = (forEachResult (ignoreUndefinedProperties w) fields (combined fields w),
     {| activeTopicSubscriptions := activeTopicSubscriptions w;
        queries := queries w ++ issued fields;
        batch :=
          batch w
          ++ map (stage fields)
               (deliveredPrefix (ignoreUndefinedProperties w) fields
                  (combined fields w));
        written := written w;
        console :=
          console w ++ [LogFields fields]
          ++ map (fun s => LogPushing (Subscription.uid s))
               (take
                  (S (length (deliveredPrefix (ignoreUndefinedProperties w)
                                fields (combined fields w))))
                  (combined fields w));
        clock := clock w;
        ignoreUndefinedProperties := ignoreUndefinedProperties w |}).
Proof.
  intros E. unfold handleNotifications.
  rewrite (bind_returned _ _ _ _ _ E).
  unfold bind at 1. cbn [log].
  unfold bind at 1. cbn [whereTopicName].
  unfold combined, companions, issued, subscribers.
  destruct (strictNe _ _).
  - unfold bind at 1. unfold bind at 1. cbn [whereTopicName ret].
    rewrite forEach_stage. cbn.
    now rewrite <- !app_assoc.
  - unfold bind at 1. cbn [ret].
    rewrite forEach_stage. cbn.
    now rewrite <- !app_assoc.
Qed.

(** [handleNotifications] when the derivation throws: the exception passes
    through, and so does the world the derivation left. *)
Lemma handleNotifications_thrown topic w e w' :
  createNotificationFields topic w = (Thrown e, w') ->
  handleNotifications topic w = (Thrown e, w').
Proof. intros E. unfold handleNotifications. now apply bind_thrown. Qed.

(** A derivation that throws has written to the console at most. *)
Lemma createNotificationFields_thrown entity w e w' :
  createNotificationFields entity w = (Thrown e, w') -> sameButConsole w w'.
Proof.
  unfold createNotificationFields, switchOnType, bind, throw, ret, now, log.
  repeat case_bool_decide; repeat case_match; try congruence;
    intros [= <- <-]; simplify_eq; now repeat split.
Qed.

(** What the derivation returns or throws depends on the world through
    the clock only. *)
Lemma createNotificationFields_outcome entity w w' :
  clock w = clock w' ->
  outcome (createNotificationFields entity) w
  = outcome (createNotificationFields entity) w'.
Proof.
  intros Hclock.
  unfold outcome, createNotificationFields, switchOnType, bind, throw, ret,
    now, log.
  repeat case_bool_decide; repeat case_match; simplify_eq; cbn;
    congruence.
Qed.

(** From the outcome to the full run. *)
Lemma createNotificationFields_returned entity w fields :
  outcome (createNotificationFields entity) w = Returned fields ->
  createNotificationFields entity w = (Returned fields, w).
Proof.
  unfold outcome. intros H.
  destruct (createNotificationFields entity w) as [r w'] eqn:E.
  cbn in H. subst r.
  now rewrite (createNotificationFields_world _ _ _ _ E) in *.
Qed.

(** The topic derived from a document tagged "bill". *)
Lemma createNotificationFields_bill_topic entity w fields w' :
  Entity.type entity = JSString "bill" ->
  createNotificationFields entity w = (Returned fields, w') ->
  Fields.topicName fields
  = "bill-" +:+ template (Entity.billCourt entity) +:+ "-"
            +:+ template (Entity.billId entity).
Proof.
  intros Htype.
  unfold createNotificationFields, switchOnType, bind, throw, ret, now, log.
  rewrite Htype. cbn.
  repeat case_bool_decide; repeat case_match; try congruence;
    intros [= <- <-]; simplify_eq; reflexivity.
Qed.

(** A staged operation is the operation of the record at the same place of
    [combinedSnapshots]. *)
Lemma staged_lookup fields w (i : nat) op :
  map (stage fields)
      (deliveredPrefix (ignoreUndefinedProperties w) fields
         (combined fields w)) !! i = Some op ->
  exists s, combined fields w !! i = Some s /\ op = stage fields s.
Proof.
  rewrite list_lookup_fmap. intros H.
  destruct (deliveredPrefix _ _ _ !! i) as [s|] eqn:Hs; [|discriminate].
  exists s. split; [now apply deliveredPrefix_lookup in Hs|].
  cbn in H. congruence.
Qed.

End FanOut.

Section Derivation.

Implicit Types (w : World) (history : list BillHistoryAction).

(** The fields derived from a document tagged "org". *)
Lemma createNotificationFields_org_tagged (entity : Entity.t) w :
  Entity.type entity = JSString "org" ->
  createNotificationFields entity w
  = (Returned
       {| Fields.topicName := "org-" +:+ template (Entity.orgId entity);
          Fields.uid := JSString "";
          Fields.notification :=
            {| Notification.bodyText := Entity.testimonyContent entity;
               Notification.header := Entity.billId entity;
               Notification.court := Entity.billCourt entity;
               Notification.id := Entity.billId entity;
               Notification.subheader := Entity.testimonyUser entity;
               Notification.timestamp := Entity.updateTime entity;
               Notification.type := JSString "org";
               Notification.delivered := false |};
          Fields.createdAt := clock w |}, w).
Proof.
  intros Htype. unfold createNotificationFields, switchOnType.
  rewrite Htype. reflexivity.
Qed.

(** The fields derived from a bill event with a last history entry. *)
Lemma createNotificationFields_bill court billId history time w entry :
  last history = Some entry ->
  createNotificationFields (BillNotification court billId history time) w
  = (Returned
       {| Fields.topicName := "bill-" +:+ court +:+ "-" +:+ billId;
          Fields.uid := JSString "";
          Fields.notification :=
            {| Notification.bodyText := JSString (Action entry);
               Notification.header := JSString billId;
               Notification.court := JSString court;
               Notification.id := JSString billId;
               Notification.subheader := JSString (Branch entry);
               Notification.timestamp := Some time;
               Notification.type := JSString "bill";
               Notification.delivered := false |};
          Fields.createdAt := clock w |}, w).
Proof.
  intros Hlast.
  assert (Hlen : ~ Z.of_nat (length history) < 1).
  { destruct history; [discriminate | cbn [length]; lia]. }
  rewrite last_lookup in Hlast.
  replace (Nat.pred (length history)) with (length history - 1)%nat in Hlast
    by lia.
  unfold createNotificationFields, switchOnType, BillNotification.
  cbn [Entity.type Entity.billHistory Entity.billCourt Entity.billId
       Entity.updateTime template].
  rewrite bool_decide_eq_true_2 by reflexivity.
  rewrite (bool_decide_eq_false_2 _ Hlen).
  rewrite Hlast. reflexivity.
Qed.

(** A non-empty history has a last entry. *)
Lemma last_of_nonempty history :
  (1 <= length history)%nat -> exists entry, last history = Some entry.
Proof.
  intros H. destruct (last history) as [entry|] eqn:E; [eauto|].
  apply last_None in E. subst. cbn in H. lia.
Qed.

(** The derivation on a bill event with an empty history. *)
Lemma createNotificationFields_empty_history court billId time w :
  createNotificationFields (BillNotification court billId [] time) w
  = (Thrown (InvalidHistoryLength 0),
     {| activeTopicSubscriptions := activeTopicSubscriptions w;
        queries := queries w;
        batch := batch w;
        written := written w;
        console := console w ++ [LogInvalidHistoryLength 0];
        clock := clock w;
        ignoreUndefinedProperties := ignoreUndefinedProperties w |}).
Proof. reflexivity. Qed.

End Derivation.

Section Trigger.

Implicit Types (w : World) (topic : Entity.t) (fields : Fields.t).

(** The whole trigger when the derivation returns: both queries are issued;
    when every write is taken, the staged operations are committed together;
    when one is refused, the exception ends the trigger before the commit
    and the operations staged so far stay in the batch. *)
Lemma publishNotifications_run topic w fields :
  createNotificationFields topic (started topic w)
    = (Returned fields, started topic w) ->
  publishNotifications (Some topic) w
  = match forEachResult (ignoreUndefinedProperties w) fields
            (combined fields w) with
    | Returned _ =>
        (Returned tt,
         {| activeTopicSubscriptions := activeTopicSubscriptions w;
            queries := queries w ++ issued fields;
            batch := [];
            written :=
              written w
              ++ map (stage fields)
                   (deliveredPrefix (ignoreUndefinedProperties w) fields
                      (combined fields w));
            console :=
              (console w ++ [LogTopicType (Entity.type topic)])
              ++ [LogFields fields]
              ++ map (fun s => LogPushing (Subscription.uid s))
                   (take
                      (S (length (deliveredPrefix
                                    (ignoreUndefinedProperties w) fields
                                    (combined fields w))))
                      (combined fields w));
            clock := clock w;
            ignoreUndefinedProperties := ignoreUndefinedProperties w |})
    | Thrown e =>
        (Thrown e,
         {| activeTopicSubscriptions := activeTopicSubscriptions w;
            queries := queries w ++ issued fields;
            batch :=
              map (stage fields)
                (deliveredPrefix (ignoreUndefinedProperties w) fields
                   (combined fields w));
            written := written w;
            console :=
              (console w ++ [LogTopicType (Entity.type topic)])
              ++ [LogFields fields]
              ++ map (fun s => LogPushing (Subscription.uid s))
                   (take
                      (S (length (deliveredPrefix
                                    (ignoreUndefinedProperties w) fields
                                    (combined fields w))))
                      (combined fields w));
            clock := clock w;
            ignoreUndefinedProperties := ignoreUndefinedProperties w |})
    end.
Proof.
  intros E.
  change (publishNotifications (Some topic) w)
    with (bind (handleNotifications topic) (fun _ => batchCommit)
            (started topic w)).
  unfold bind. rewrite (handleNotifications_run _ _ _ E).
  change (ignoreUndefinedProperties (started topic w))
    with (ignoreUndefinedProperties w).
  change (combined fields (started topic w)) with (combined fields w).
  destruct (forEachResult (ignoreUndefinedProperties w) fields
              (combined fields w)); reflexivity.
Qed.

(** The whole trigger when the derivation throws: [batch.commit()] is not
    reached. *)
Lemma publishNotifications_thrown topic w e w' :
  createNotificationFields topic (started topic w) = (Thrown e, w') ->
  publishNotifications (Some topic) w = (Thrown e, w').
Proof.
  intros E. unfold publishNotifications.
  unfold bind at 1. cbn [newBatch].
  unfold bind at 1. cbn [log].
  fold (started topic w).
  apply bind_thrown. now apply handleNotifications_thrown.
Qed.

(** A deleted event document: one console line, nothing else. *)
Lemma publishNotifications_deleted w :
  outcome (publishNotifications None) w = Returned tt
  /\ written (after (publishNotifications None) w) = written w
  /\ queries (after (publishNotifications None) w) = queries w.
Proof. now repeat split. Qed.

End Trigger.

(** *** The claims about the fan-out *)

Section FanOutClaims.

Implicit Types (w : World) (topic : Entity.t) (fields : Fields.t).

(** C1 (as amended).  Let [direct] be the result of the direct-topic query
    and [companion] the result of the bill-companion query (empty when that
    query is not issued).  [handleNotifications] stages one notification per
    element of [direct], then one per element of [companion], in order, up
    to the first write that Firestore refuses; it returns exactly when none
    is refused, and then all of them are staged.  A staged notification for
    a companion subscriber has type "bill"; a staged notification for a
    direct subscriber has the [type] of that subscriber's own record,
    whatever the event's type is.  So a staged notification has type "bill"
    if and only if its subscriber came from the companion query or its own
    record says "bill". *)
Theorem notification_type_from_subscription topic w fields w' :
  createNotificationFields topic w = (Returned fields, w') ->
  let direct := subscribers w (Fields.topicName fields) in
  let companion := companions fields w in
  let full :=
    map (stage fields) direct
    ++ map (fun s => stage fields (withTypeBill s)) companion in
  exists staged : list WriteOp,
    batch (after (handleNotifications topic) w) = batch w ++ staged
    /\ staged = take (length staged) full
    /\ (outcome (handleNotifications topic) w = Returned tt
        <-> forallb (deliverable (ignoreUndefinedProperties w) fields)
              (combined fields w) = true)
    /\ (outcome (handleNotifications topic) w = Returned tt ->
        staged = full)
    /\ (forall (i : nat) s op,
          direct !! i = Some s -> staged !! i = Some op ->
          typeOf op = Subscription.type s)
    /\ (forall (i : nat) op,
          staged !! i = Some op -> (length direct <= i)%nat ->
          typeOf op = JSString "bill")
    /\ (forall (i : nat) op, staged !! i = Some op ->
          typeOf op = JSString "bill"
          <-> ((length direct <= i)%nat
               \/ exists s, direct !! i = Some s
                            /\ Subscription.type s = JSString "bill")).
Proof.
  intros E direct companion full.
  pose proof (createNotificationFields_world _ _ _ _ E) as Hworld.
  subst w'.
  assert (Hfull : map (stage fields) (combined fields w) = full).
  { unfold combined, full. now rewrite map_app, map_map. }
  assert (Hdirect : forall (i : nat) s op,
            direct !! i = Some s ->
            map (stage fields)
              (deliveredPrefix (ignoreUndefinedProperties w) fields
                 (combined fields w)) !! i = Some op ->
            op = stage fields s).
  { intros i s op Hs Hop.
    apply staged_lookup in Hop as (s0 & Hs0 & ->).
    unfold combined in Hs0. fold direct in Hs0.
    rewrite lookup_app_l in Hs0 by (now apply lookup_lt_Some in Hs).
    congruence. }
  assert (Hcompanion : forall (i : nat) op,
            map (stage fields)
              (deliveredPrefix (ignoreUndefinedProperties w) fields
                 (combined fields w)) !! i = Some op ->
            (length direct <= i)%nat ->
            typeOf op = JSString "bill").
  { intros i op Hop Hge.
    apply staged_lookup in Hop as (s0 & Hs0 & ->).
    unfold combined in Hs0. fold direct in Hs0.
    rewrite lookup_app_r in Hs0 by exact Hge.
    rewrite list_lookup_fmap in Hs0.
    destruct (companions fields w !! (i - length direct)%nat);
      [|discriminate].
    cbn in Hs0. now injection Hs0 as <-. }
  exists (map (stage fields)
            (deliveredPrefix (ignoreUndefinedProperties w) fields
               (combined fields w))).
  unfold after, outcome. rewrite (handleNotifications_run _ _ _ E).
  cbn [fst snd batch].
  split; [reflexivity|]. split; [|split; [|split; [|split; [|split]]]].
  - destruct (deliveredPrefix_prefix (ignoreUndefinedProperties w) fields
                (combined fields w)) as [rest Hrest].
    rewrite <- Hfull. rewrite Hrest at 3. rewrite map_app.
    now rewrite take_app_length.
  - apply forEachResult_returned.
  - intros Hreturned.
    destruct (forEachResult_cases (ignoreUndefinedProperties w) fields
                (combined fields w)) as [[_ ->]|[e He]];
      [exact Hfull|congruence].
  - intros i s op Hs Hop. now rewrite (Hdirect _ _ _ Hs Hop).
  - exact Hcompanion.
  - intros i op Hop.
    destruct (decide (length direct <= i)%nat) as [Hge|Hlt].
    + split; [auto|intros _; now apply (Hcompanion i)].
    + destruct (direct !! i) as [s|] eqn:Hs.
      * rewrite (Hdirect _ _ _ Hs Hop). split.
        -- intros Ht. right. exists s. auto.
        -- intros [Hge|[s' [[= <-] Ht]]]; [lia|exact Ht].
      * apply lookup_ge_None in Hs. lia.
Qed.

(** C1, an instance: the event of the scenario, a follower of the
    organisation typed "org" and a follower of the bill whose record has no
    [type]; the second is tagged "bill". *)
Lemma notification_type_from_subscription_witness :
  createNotificationFields scenarioEvent
      (worldWith [orgSubscriber; untypedBillSubscriber])
    = (Returned
         {| Fields.topicName := "org-42";
            Fields.uid := JSString "";
            Fields.notification :=
              {| Notification.bodyText := JSString "Support";
                 Notification.header := JSString "100";
                 Notification.court := JSString "House";
                 Notification.id := JSString "100";
                 Notification.subheader := JSString "alice";
                 Notification.timestamp := Some 0;
                 Notification.type := JSString "org";
                 Notification.delivered := false |};
            Fields.createdAt := 0 |},
       worldWith [orgSubscriber; untypedBillSubscriber])
  /\ exists staged : list WriteOp,
       batch (after (handleNotifications scenarioEvent)
                (worldWith [orgSubscriber; untypedBillSubscriber]))
         = [] ++ staged
       /\ map typeOf staged = [JSString "org"; JSString "bill"].
Proof.
  split; [reflexivity|].
  destruct (notification_type_from_subscription scenarioEvent
              (worldWith [orgSubscriber; untypedBillSubscriber]) _ _ eq_refl)
    as (staged & Hbatch & _ & _ & Hall & _).
  exists staged. split; [exact Hbatch|].
  rewrite (Hall eq_refl). reflexivity.
Defined.

(** C1, counterexample.  The event of the scenario, of type "org", with two
    followers of the organisation, whose records are typed "testimony" and
    "bill", and one follower of the bill.  All three writes go through.  The
    first notification has type "testimony", not the event's "org"; the
    second has type "bill" although its subscriber came from the
    direct-topic query. *)
Lemma notification_type_counterexample :
  Entity.type scenarioEvent = JSString "org"
  /\ subscribers
       (worldWith [followerTypedTestimony; followerTypedBill; billSubscriber])
       "org-42"
     = [followerTypedTestimony; followerTypedBill]
  /\ subscribers
       (worldWith [followerTypedTestimony; followerTypedBill; billSubscriber])
       "bill-House-100"
     = [billSubscriber]
  /\ queries
       (after (handleNotifications scenarioEvent)
          (worldWith
             [followerTypedTestimony; followerTypedBill; billSubscriber]))
     = ["org-42"; "bill-House-100"]
  /\ outcome (handleNotifications scenarioEvent)
       (worldWith [followerTypedTestimony; followerTypedBill; billSubscriber])
     = Returned tt
  /\ map typeOf
       (batch
          (after (handleNotifications scenarioEvent)
             (worldWith
                [followerTypedTestimony; followerTypedBill; billSubscriber])))
     = [JSString "testimony"; JSString "bill"; JSString "bill"].
Proof. now vm_compute. Qed.



(** C3 (as amended).  For every org event the derived [header], [court] and
    [id] are the event's own [billId], [billCourt] and [billId], and the
    second query asks for the topic [bill-{billCourt}-{billId}]; that query
    is issued.  They are [undefined], and the topic is
    "bill-undefined-undefined", for an event document that has neither
    field. *)
Theorem org_event_bill_fields_from_event (entity : Entity.t) w :
  Entity.type entity = JSString "org" ->
  exists fields,
    createNotificationFields entity w = (Returned fields, w)
    /\ Notification.header (Fields.notification fields) = Entity.billId entity
    /\ Notification.court (Fields.notification fields)
       = Entity.billCourt entity
    /\ Notification.id (Fields.notification fields) = Entity.billId entity
    /\ billTopic fields
       = "bill-" +:+ template (Entity.billCourt entity) +:+ "-"
                 +:+ template (Entity.billId entity)
    /\ queries (after (handleNotifications entity) w)
       = queries w
         ++ ["org-" +:+ template (Entity.orgId entity);
             "bill-" +:+ template (Entity.billCourt entity) +:+ "-"
                     +:+ template (Entity.billId entity)]
    /\ (Entity.billCourt entity = undefined ->
        Entity.billId entity = undefined ->
        Notification.header (Fields.notification fields) = undefined
        /\ Notification.court (Fields.notification fields) = undefined
        /\ Notification.id (Fields.notification fields) = undefined
        /\ billTopic fields = "bill-undefined-undefined").
Proof.
  intros Htype.
  pose proof (createNotificationFields_org_tagged entity w Htype) as E.
  eexists. split; [exact E|].
  repeat (split; [reflexivity|]).
  split.
  - unfold after. now rewrite (handleNotifications_run _ _ _ E).
  - intros Hcourt Hid. unfold billTopic. cbn. now rewrite Hcourt, Hid.
Qed.

(** C3, instances: the event of the scenario, and an org document that
    names no bill. *)
Lemma org_event_bill_fields_from_event_witness :
  Entity.type scenarioEvent = JSString "org"
  /\ queries (after (handleNotifications scenarioEvent) (worldWith []))
     = [] ++ ["org-42"; "bill-House-100"]
  /\ Entity.type orgEventWithoutBill = JSString "org"
  /\ queries (after (handleNotifications orgEventWithoutBill) (worldWith []))
     = [] ++ ["org-42"; "bill-undefined-undefined"].
Proof.
  split; [reflexivity|]. split; [|split; [reflexivity|]].
  - destruct (org_event_bill_fields_from_event scenarioEvent (worldWith [])
                eq_refl) as (fields & _ & _ & _ & _ & _ & Hqueries & _).
    exact Hqueries.
  - destruct (org_event_bill_fields_from_event orgEventWithoutBill
                (worldWith []) eq_refl)
      as (fields & _ & _ & _ & _ & _ & Hqueries & _).
    exact Hqueries.
Defined.

(** C3, counterexample.  For the org event of the scenario, on the bill
    House 100, the derived header, court and id are "100", "House" and
    "100", not [undefined], and the second query asks for "bill-House-100",
    not for "bill-undefined-undefined". *)
Lemma org_event_bill_fields_counterexample :
  Entity.type scenarioEvent = JSString "org"
  /\ (exists fields,
        outcome (createNotificationFields scenarioEvent) (worldWith [])
          = Returned fields
        /\ Notification.header (Fields.notification fields) = JSString "100"
        /\ Notification.court (Fields.notification fields) = JSString "House"
        /\ Notification.id (Fields.notification fields) = JSString "100"
        /\ Notification.header (Fields.notification fields) <> undefined)
  /\ queries (after (handleNotifications scenarioEvent) (worldWith []))
     = ["org-42"; "bill-House-100"]
  /\ ~ In "bill-undefined-undefined"
         (queries (after (handleNotifications scenarioEvent) (worldWith []))).
Proof.
  split; [reflexivity|]. split; [|split; [reflexivity|]].
  - eexists. split; [reflexivity|]. now repeat split.
  - vm_compute. intros [H|[H|[]]]; discriminate.
Qed.

(** C4.  For every bill event with an empty history the field derivation
    throws the error "Invalid history length: 0"; the trigger ends with that
    exception, no query is issued, no operation is staged, and no document
    is written: [batch.commit()] is not reached. *)
Theorem empty_history_aborts court billId time w :
  outcome (createNotificationFields (BillNotification court billId [] time)) w
    = Thrown (InvalidHistoryLength 0)
  /\ outcome (publishNotifications
                (Some (BillNotification court billId [] time))) w
     = Thrown (InvalidHistoryLength 0)
  /\ written (after (publishNotifications
                       (Some (BillNotification court billId [] time))) w)
     = written w
  /\ batch (after (publishNotifications
                     (Some (BillNotification court billId [] time))) w)
     = []
  /\ queries (after (publishNotifications
                       (Some (BillNotification court billId [] time))) w)
     = queries w.
Proof.
  split; [reflexivity|].
  unfold outcome, after.
  erewrite publishNotifications_thrown
    by apply createNotificationFields_empty_history.
  now repeat split.
Qed.

(** C5.  For every bill event whose history has at least one entry, the
    derivation returns; the topic name is [bill-{court}-{billId}], the body
    text is the [Action] of the last history entry and the subheader is its
    [Branch]. *)
Theorem bill_fields_from_last_entry court billId history time w :
  (1 <= length history)%nat ->
  exists entry fields,
    last history = Some entry
    /\ createNotificationFields
         (BillNotification court billId history time) w
       = (Returned fields, w)
    /\ Fields.topicName fields = "bill-" +:+ court +:+ "-" +:+ billId
    /\ Notification.bodyText (Fields.notification fields)
       = JSString (Action entry)
    /\ Notification.subheader (Fields.notification fields)
       = JSString (Branch entry).
Proof.
  intros Hlen. destruct (last_of_nonempty _ Hlen) as [entry Hlast].
  exists entry. eexists. split; [exact Hlast|].
  split; [exact (createNotificationFields_bill _ _ _ _ _ _ Hlast)|].
  now repeat split.
Qed.

(** C5, an instance: a history of two entries. *)
Lemma bill_fields_from_last_entry_witness :
  (1 <= length [{| Action := "Read"; Branch := "Senate" |};
                {| Action := "Reported favorably"; Branch := "House" |}])%nat
  /\ exists fields,
       createNotificationFields
         (BillNotification "House" "100"
            [{| Action := "Read"; Branch := "Senate" |};
             {| Action := "Reported favorably"; Branch := "House" |}] 0)
         (worldWith [])
       = (Returned fields, worldWith [])
       /\ Fields.topicName fields = "bill-House-100"
       /\ Notification.bodyText (Fields.notification fields)
          = JSString "Reported favorably"
       /\ Notification.subheader (Fields.notification fields)
          = JSString "House".
Proof.
  assert (Hlen : (1 <= length
            [{| Action := "Read"; Branch := "Senate" |};
             {| Action := "Reported favorably"; Branch := "House" |}])%nat)
    by (simpl; lia).
  split; [exact Hlen|].
  destruct (bill_fields_from_last_entry "House" "100" _ 0 (worldWith []) Hlen)
    as (entry & fields & Hlast & Hrun & Htopic & Hbody & Hsub).
  injection Hlast as <-.
  exists fields. repeat split; assumption.
Defined.

(** C6.  The second subscriber query, for the topic [bill-{court}-{id}]
    built from the notification's own [court] and [id], is issued exactly
    when the event is not a bill event.  For every org event
    [handleNotifications] issues two queries: the direct one, for
    [org-{orgId}], and then that one, where [court] and [id] are the event's
    [billCourt] and [billId].  For every bill event it issues the direct
    one alone, for [bill-{billCourt}-{billId}], and none at all when the
    derivation throws. *)
Theorem companion_query_iff_not_bill :
  (forall (entity : Entity.t) w,
     Entity.type entity = JSString "org" ->
     exists fields,
       createNotificationFields entity w = (Returned fields, w)
       /\ Notification.court (Fields.notification fields)
          = Entity.billCourt entity
       /\ Notification.id (Fields.notification fields) = Entity.billId entity
       /\ queries (after (handleNotifications entity) w)
          = queries w
            ++ ["org-" +:+ template (Entity.orgId entity);
                "bill-"
                  +:+ template (Notification.court (Fields.notification fields))
                  +:+ "-"
                  +:+ template (Notification.id (Fields.notification fields))])
  /\ (forall (entity : Entity.t) w,
        Entity.type entity = JSString "bill" ->
        queries (after (handleNotifications entity) w)
        = queries w
          ++ match outcome (createNotificationFields entity) w with
             | Returned _ =>
                 ["bill-" +:+ template (Entity.billCourt entity) +:+ "-"
                          +:+ template (Entity.billId entity)]
             | Thrown _ => []
             end).
Proof.
  split.
  - intros entity w Htype.
    pose proof (createNotificationFields_org_tagged entity w Htype) as E.
    eexists. split; [exact E|]. split; [reflexivity|].
    split; [reflexivity|].
    unfold after. now rewrite (handleNotifications_run _ _ _ E).
  - intros entity w Htype. unfold after, outcome.
    destruct (createNotificationFields entity w) as [[fields|e] w1] eqn:E.
    + pose proof (createNotificationFields_world _ _ _ _ E) as ->.
      rewrite (handleNotifications_run _ _ _ E). cbn [snd fst queries].
      unfold issued.
      destruct (createNotificationFields_type _ _ _ _ E) as (-> & _).
      rewrite (createNotificationFields_bill_topic _ _ _ _ Htype E).
      now rewrite Htype.
    + rewrite (handleNotifications_thrown _ _ _ _ E). cbn [snd fst].
      destruct (createNotificationFields_thrown _ _ _ _ E)
        as (_ & -> & _).
      now rewrite app_nil_r.
Qed.

(** C6, instances: two org events on different bills, a bill event, and a
    bill event with an empty history. *)
Lemma companion_query_iff_not_bill_witness :
  queries (after (handleNotifications scenarioEvent) (worldWith []))
    = [] ++ ["org-42"; "bill-House-100"]
  /\ queries (after (handleNotifications
                       (OrgNotification "7" "Oppose" "bob" "Senate" "5" 0))
                (worldWith []))
     = [] ++ ["org-7"; "bill-Senate-5"]
  /\ queries (after (handleNotifications billEvent) (worldWith []))
     = [] ++ ["bill-House-100"]
  /\ queries (after (handleNotifications (BillNotification "House" "100" [] 0))
                (worldWith []))
     = [] ++ [].
Proof.
  split; [|split; [|split]].
  - destruct (proj1 companion_query_iff_not_bill scenarioEvent (worldWith [])
                eq_refl) as (fields & _ & Hcourt & Hid & Hqueries).
    rewrite Hqueries, Hcourt, Hid. reflexivity.
  - destruct (proj1 companion_query_iff_not_bill
                (OrgNotification "7" "Oppose" "bob" "Senate" "5" 0)
                (worldWith []) eq_refl)
      as (fields & _ & Hcourt & Hid & Hqueries).
    rewrite Hqueries, Hcourt, Hid. reflexivity.
  - exact (proj2 companion_query_iff_not_bill billEvent (worldWith [])
             eq_refl).
  - exact (proj2 companion_query_iff_not_bill
             (BillNotification "House" "100" [] 0) (worldWith []) eq_refl).
Defined.

End FanOutClaims.

(* ===================================================================== *)
(** ** Part 2, proofs: the pagination reducer *)
(* ===================================================================== *)

Section CursorList.

Implicit Types (keys : list PageKey) (i j : Z) (v : PageKey).

Lemma index_negative keys i : i < 0 -> index keys i = KeyUndefined.
Proof.
  intros H. unfold index. now rewrite bool_decide_eq_false_2 by lia.
Qed.

Lemma index_nonnegative keys i :
  0 <= i -> index keys i = default KeyUndefined (keys !! Z.to_nat i).
Proof.
  intros H. unfold index. now rewrite bool_decide_eq_true_2 by lia.
Qed.

(** A cell that is not [undefined] lies inside the array. *)
Lemma index_defined_in_range keys i :
  index keys i <> KeyUndefined -> 0 <= i < Z.of_nat (length keys).
Proof.
  intros H. destruct (decide (i < 0)) as [Hneg|Hpos].
  - now rewrite index_negative in H.
  - rewrite index_nonnegative in H by lia.
    destruct (keys !! Z.to_nat i) eqn:E; [|now cbn in H].
    apply lookup_lt_Some in E. lia.
Qed.

(** Reading the cell just assigned. *)
Lemma index_assign_eq keys i v : 0 <= i -> index (assign keys i v) i = v.
Proof.
  intros H. rewrite index_nonnegative by lia. unfold assign.
  rewrite bool_decide_eq_false_2 by lia. cbv zeta.
  case_bool_decide as Hin.
  - now rewrite list_lookup_insert_eq.
  - rewrite lookup_app_r by lia.
    rewrite lookup_app_r by (rewrite length_replicate; lia).
    rewrite length_replicate.
    now replace (Z.to_nat i - length keys - (Z.to_nat i - length keys))%nat
      with 0%nat by lia.
Qed.

(** Reading any other cell: as before the assignment. *)
Lemma index_assign_ne keys i j v :
  i <> j -> index (assign keys i v) j = index keys j.
Proof.
  intros Hne. unfold assign. case_bool_decide as Hi; [reflexivity|].
  destruct (decide (j < 0)) as [Hj|Hj].
  { now rewrite !index_negative. }
  rewrite !index_nonnegative by lia. cbv zeta.
  assert (Hnat : Z.to_nat i <> Z.to_nat j) by lia.
  case_bool_decide as Hin.
  - now rewrite list_lookup_insert_ne.
  - destruct (decide (Z.to_nat j < length keys)%nat) as [Hlt|Hge].
    + now rewrite lookup_app_l.
    + rewrite (lookup_ge_None_2 keys) by lia.
      rewrite lookup_app_r by lia.
      destruct (decide (Z.to_nat j < Z.to_nat i)%nat) as [Hbelow|Habove].
      * rewrite lookup_app_l by (rewrite length_replicate; lia).
        now rewrite lookup_replicate_2 by lia.
      * rewrite lookup_app_r by (rewrite length_replicate; lia).
        rewrite length_replicate.
        now rewrite lookup_ge_None_2 by (cbn; lia).
Qed.

(** [nth] with a non-negative index is a plain lookup. *)
Lemma nth_nonnegative {A} (array : list A) n :
  0 <= n -> lodash.nth array n = array !! Z.to_nat n.
Proof.
  intros H. unfold lodash.nth.
  rewrite (bool_decide_eq_false_2 (n < 0)) by lia. cbv beta iota zeta.
  now rewrite bool_decide_eq_true_2 by lia.
Qed.

End CursorList.

Section Reducer.

Implicit Types (state : State.t) (action : Action.t).

(** No action changes the page size. *)
Lemma reducer_billsPerPage state action :
  State.billsPerPage (reducer state action) = State.billsPerPage state.
Proof.
  destruct action; cbn; try reflexivity;
    repeat case_bool_decide; reflexivity.
Qed.

Lemma reachable_billsPerPage state :
  reachable state -> State.billsPerPage state = 10.
Proof.
  induction 1 as [|state action _ IH]; [reflexivity|].
  now rewrite reducer_billsPerPage.
Qed.

(** Without a cursor for the next page, [nextPage] does nothing. *)
Lemma nextPage_unknown_cursor state :
  index (State.pageKeys state) (State.currentPage state + 1) = KeyUndefined ->
  reducer state Action.nextPage = state.
Proof. intros Hkey. cbn. now rewrite Hkey. Qed.

Lemma invariant_initialState : invariant initialState.
Proof.
  split; [cbn; unfold initialPage_currentPage; lia | now repeat split].
Qed.

(** The first page, whatever the other fields are. *)
Lemma invariant_initialPage sort filter billsPerPage error :
  invariant
    {| State.sort := sort;
       State.filter := filter;
       State.pageKeys := initialPage_pageKeys;
       State.currentPageKey := initialPage_currentPageKey;
       State.currentPage := initialPage_currentPage;
       State.billsPerPage := billsPerPage;
       State.nextKey := initialPage_nextKey;
       State.previousKey := initialPage_previousKey;
       State.error := error |}.
Proof.
  split; [cbn; unfold initialPage_currentPage; lia | now repeat split].
Qed.

(** Moving to an adjacent page keeps the invariant. *)
Lemma invariant_move state delta :
  invariant state ->
  index (State.pageKeys state) (State.currentPage state + delta)
    <> KeyUndefined ->
  invariant
    {| State.sort := State.sort state;
       State.filter := State.filter state;
       State.pageKeys := State.pageKeys state;
       State.currentPageKey :=
         index (State.pageKeys state) (State.currentPage state + delta);
       State.currentPage := State.currentPage state + delta;
       State.billsPerPage := State.billsPerPage state;
       State.nextKey :=
         fst (adjacentKeys (State.pageKeys state)
                (State.currentPage state + delta));
       State.previousKey :=
         snd (adjacentKeys (State.pageKeys state)
                (State.currentPage state + delta));
       State.error := State.error state |}.
Proof.
  intros (Hpage & Hfirst & _) Hknown.
  apply index_defined_in_range in Hknown.
  unfold invariant. cbn. repeat split; try reflexivity; [lia|exact Hfirst].
Qed.

Lemma invariant_step state action :
  invariant state -> invariant (reducer state action).
Proof.
  intros Hinv. destruct action as [| |sort|filter|page|error]; cbn.
  - case_bool_decide as Hkey; cbn; [exact Hinv|].
    now apply (invariant_move state 1).
  - case_bool_decide as Hkey; cbn; [exact Hinv|].
    now apply (invariant_move state (-1)).
  - case_bool_decide; cbn; [exact Hinv|apply invariant_initialPage].
  - apply invariant_initialPage.
  - destruct Hinv as (Hpage & Hfirst & Hcurrent & _).
    unfold invariant. cbn. repeat split; try reflexivity.
    + exact Hpage.
    + rewrite index_assign_ne by lia. exact Hfirst.
    + rewrite index_assign_ne by lia. exact Hcurrent.
  - exact Hinv.
Qed.

End Reducer.

(** *** The claims about the reducer *)

Section ReducerClaims.

Implicit Types (state : State.t) (action : Action.t) (page : list Bill.t).

(** C7.  [nextPage] (and [previousPage]) returns the state unchanged when
    the cursor of the adjacent page, [pageKeys[currentPage + 1]]
    ([pageKeys[currentPage - 1]]), is [undefined].  When it is not, the page
    index moves by +1 (-1), the stored cursor becomes the current page key,
    and the next and previous cursors are read again from the cursor list
    around the new index; all other fields stay. *)
Theorem page_move_needs_known_cursor state :
  (index (State.pageKeys state) (State.currentPage state + 1) = KeyUndefined ->
   reducer state Action.nextPage = state)
  /\ (index (State.pageKeys state) (State.currentPage state + 1)
        <> KeyUndefined ->
      reducer state Action.nextPage
      = {| State.sort := State.sort state;
           State.filter := State.filter state;
           State.pageKeys := State.pageKeys state;
           State.currentPageKey :=
             index (State.pageKeys state) (State.currentPage state + 1);
           State.currentPage := State.currentPage state + 1;
           State.billsPerPage := State.billsPerPage state;
           State.nextKey :=
             index (State.pageKeys state) (State.currentPage state + 1 + 1);
           State.previousKey :=
             index (State.pageKeys state) (State.currentPage state + 1 - 1);
           State.error := State.error state |})
  /\ (index (State.pageKeys state) (State.currentPage state - 1)
        = KeyUndefined ->
      reducer state Action.previousPage = state)
  /\ (index (State.pageKeys state) (State.currentPage state - 1)
        <> KeyUndefined ->
      reducer state Action.previousPage
      = {| State.sort := State.sort state;
           State.filter := State.filter state;
           State.pageKeys := State.pageKeys state;
           State.currentPageKey :=
             index (State.pageKeys state) (State.currentPage state - 1);
           State.currentPage := State.currentPage state - 1;
           State.billsPerPage := State.billsPerPage state;
           State.nextKey :=
             index (State.pageKeys state) (State.currentPage state - 1 + 1);
           State.previousKey :=
             index (State.pageKeys state) (State.currentPage state - 1 - 1);
           State.error := State.error state |}).
Proof.
  repeat split; intros Hkey; cbn;
    change (State.currentPage state + -1) with (State.currentPage state - 1);
    case_bool_decide; cbn; congruence.
Qed.

(** C7, instances: the initial state, the state after a full first page,
    and the state after moving to the second page. *)
Lemma page_move_needs_known_cursor_witness :
  (index (State.pageKeys initialState) (State.currentPage initialState + 1)
     = KeyUndefined
   /\ reducer initialState Action.nextPage = initialState)
  /\ (index (State.pageKeys firstPageLoaded)
        (State.currentPage firstPageLoaded + 1) <> KeyUndefined
      /\ State.currentPage (reducer firstPageLoaded Action.nextPage) = 1
      /\ State.currentPageKey (reducer firstPageLoaded Action.nextPage)
         = Key [FString "H10"])
  /\ (index (State.pageKeys firstPageLoaded)
        (State.currentPage firstPageLoaded - 1) = KeyUndefined
      /\ reducer firstPageLoaded Action.previousPage = firstPageLoaded)
  /\ (index (State.pageKeys (reducer firstPageLoaded Action.nextPage))
        (State.currentPage (reducer firstPageLoaded Action.nextPage) - 1)
        <> KeyUndefined
      /\ State.currentPage
           (reducer (reducer firstPageLoaded Action.nextPage)
              Action.previousPage) = 0).
Proof.
  assert (H1 : index (State.pageKeys initialState)
                 (State.currentPage initialState + 1) = KeyUndefined)
    by reflexivity.
  assert (H2 : index (State.pageKeys firstPageLoaded)
                 (State.currentPage firstPageLoaded + 1) <> KeyUndefined)
    by (vm_compute; discriminate).
  assert (H3 : index (State.pageKeys firstPageLoaded)
                 (State.currentPage firstPageLoaded - 1) = KeyUndefined)
    by reflexivity.
  assert (H4 : index (State.pageKeys (reducer firstPageLoaded Action.nextPage))
                 (State.currentPage (reducer firstPageLoaded Action.nextPage)
                  - 1) <> KeyUndefined)
    by (vm_compute; discriminate).
  split; [split; [exact H1|]|split; [split; [exact H2|]|split; [split;
    [exact H3|]|split; [exact H4|]]]].
  - exact (proj1 (page_move_needs_known_cursor initialState) H1).
  - rewrite (proj1 (proj2 (page_move_needs_known_cursor firstPageLoaded)) H2).
    split; reflexivity.
  - exact (proj1 (proj2 (proj2
             (page_move_needs_known_cursor firstPageLoaded))) H3).
  - rewrite (proj2 (proj2 (proj2
               (page_move_needs_known_cursor
                  (reducer firstPageLoaded Action.nextPage)))) H4).
    reflexivity.
Defined.

(** C8.  For every pagination state, [onSuccess] writes one cell of the
    cursor list, the one at index [currentPage + 1], reads the next and
    previous cursors again from the new list around the current page index,
    and leaves every other cell and every other field as it was.  With a
    page of fewer than [billsPerPage] bills the value written is
    [undefined], so no next page is on offer and [nextPage] does nothing.
    With a page of at least [billsPerPage] bills it is the page key of the
    [billsPerPage]-th bill under the current sort mode: the bill's id when
    sorting by id, and otherwise the bill's cosponsor count, testimony
    count, latest-testimony time or next-hearing time, followed by its id.
    (This needs a [billsPerPage]-th bill, so a page size of at least 1, and
    an index [currentPage + 1] that is not negative.)  Every reachable state
    has page size 10 and a page index of at least 0, so there both halves
    hold as they stand. *)
Theorem onSuccess_stores_next_cursor state page :
  (State.nextKey (reducer state (Action.onSuccess page))
   = index (State.pageKeys (reducer state (Action.onSuccess page)))
       (State.currentPage state + 1)
   /\ State.previousKey (reducer state (Action.onSuccess page))
      = index (State.pageKeys (reducer state (Action.onSuccess page)))
          (State.currentPage state - 1)
   /\ (forall i, i <> State.currentPage state + 1 ->
         index (State.pageKeys (reducer state (Action.onSuccess page))) i
         = index (State.pageKeys state) i)
   /\ State.currentPage (reducer state (Action.onSuccess page))
      = State.currentPage state
   /\ State.currentPageKey (reducer state (Action.onSuccess page))
      = State.currentPageKey state
   /\ State.sort (reducer state (Action.onSuccess page)) = State.sort state
   /\ State.filter (reducer state (Action.onSuccess page))
      = State.filter state
   /\ State.billsPerPage (reducer state (Action.onSuccess page))
      = State.billsPerPage state
   /\ State.error (reducer state (Action.onSuccess page))
      = State.error state)
  /\ (Z.of_nat (length page) < State.billsPerPage state ->
      index (State.pageKeys (reducer state (Action.onSuccess page)))
        (State.currentPage state + 1)
      = KeyUndefined
      /\ State.nextKey (reducer state (Action.onSuccess page)) = KeyUndefined
      /\ hasNextPage (reducer state (Action.onSuccess page)) = false
      /\ reducer (reducer state (Action.onSuccess page)) Action.nextPage
         = reducer state (Action.onSuccess page))
  /\ (1 <= State.billsPerPage state ->
      State.billsPerPage state <= Z.of_nat (length page) ->
      0 <= State.currentPage state + 1 ->
      exists bill key,
        page !! Z.to_nat (State.billsPerPage state - 1) = Some bill
        /\ key
           = match State.sort state with
             | Sort.id => [FString (Bill.id bill)]
             | Sort.cosponsorCount =>
                 [FNumber (Bill.cosponsorCount bill); FString (Bill.id bill)]
             | Sort.testimonyCount =>
                 [FNumber (Bill.testimonyCount bill); FString (Bill.id bill)]
             | Sort.latestTestimony =>
                 [optionalTimestamp (Bill.latestTestimonyAt bill);
                  FString (Bill.id bill)]
             | Sort.hearingDate =>
                 [optionalTimestamp (Bill.nextHearingAt bill);
                  FString (Bill.id bill)]
             end
        /\ index (State.pageKeys (reducer state (Action.onSuccess page)))
             (State.currentPage state + 1)
           = Key key
        /\ State.nextKey (reducer state (Action.onSuccess page)) = Key key
        /\ hasNextPage (reducer state (Action.onSuccess page)) = true)
  /\ (reachable state ->
      State.billsPerPage state = 10 /\ 0 <= State.currentPage state).
Proof.
  assert (Hnext :
    State.nextKey (reducer state (Action.onSuccess page))
    = index (State.pageKeys (reducer state (Action.onSuccess page)))
        (State.currentPage state + 1)) by reflexivity.
  split; [|split; [|split]].
  - split; [exact Hnext|]. split; [reflexivity|]. split; [|now repeat split].
    intros i Hi. cbn. now rewrite index_assign_ne by congruence.
  - intros Hshort.
    assert (Hstored :
      index (State.pageKeys (reducer state (Action.onSuccess page)))
        (State.currentPage state + 1) = KeyUndefined).
    { cbn. rewrite nth_nonnegative by lia.
      rewrite (lookup_ge_None_2 page) by lia.
      destruct (decide (State.currentPage state + 1 < 0)) as [Hneg|Hpos].
      - now apply index_negative.
      - apply index_assign_eq. lia. }
    assert (Hundefined :
      State.nextKey (reducer state (Action.onSuccess page)) = KeyUndefined)
      by now rewrite Hnext.
    split; [exact Hstored|]. split; [exact Hundefined|]. split.
    + unfold hasNextPage. rewrite Hundefined.
      now rewrite bool_decide_eq_true_2.
    + apply nextPage_unknown_cursor. exact Hstored.
  - intros Hsize Hfull Hindex.
    destruct (page !! Z.to_nat (State.billsPerPage state - 1))
      as [bill|] eqn:Hbill; [|apply lookup_ge_None in Hbill; lia].
    assert (Hstored :
      index (State.pageKeys (reducer state (Action.onSuccess page)))
        (State.currentPage state + 1)
      = Key (getPageKey bill (State.sort state))).
    { cbn. rewrite index_assign_eq by lia.
      rewrite nth_nonnegative by lia. now rewrite Hbill. }
    exists bill, (getPageKey bill (State.sort state)).
    split; [reflexivity|]. split; [now destruct (State.sort state)|].
    split; [exact Hstored|]. split; [now rewrite Hnext|].
    unfold hasNextPage. rewrite Hnext, Hstored.
    now rewrite bool_decide_eq_false_2.
  - intros Hreach. split; [now apply reachable_billsPerPage|].
    assert (Hinv : invariant state).
    { clear page Hnext. induction Hreach as [|state action _ IH];
        [exact invariant_initialState|now apply invariant_step]. }
    now destruct Hinv.
Qed.

(** C8, instances: when sorting by cosponsor count and by latest testimony,
    a full page arriving in the first-page state stores the key of its tenth
    bill under that sort mode, and a short page stores [undefined]. *)
Lemma onSuccess_stores_next_cursor_witness :
  (reachable (reducer initialState (Action.sort Sort.cosponsorCount))
   /\ State.nextKey
        (reducer (reducer initialState (Action.sort Sort.cosponsorCount))
           (Action.onSuccess fullPage))
      = Key [FNumber 3; FString "H10"])
  /\ State.nextKey
       (reducer (reducer initialState (Action.sort Sort.latestTestimony))
          (Action.onSuccess fullPage))
     = Key [FTimestamp 1700000000; FString "H10"]
  /\ (Z.of_nat (length shortPage)
      < State.billsPerPage
          (reducer initialState (Action.sort Sort.cosponsorCount))
      /\ State.nextKey
           (reducer (reducer initialState (Action.sort Sort.cosponsorCount))
              (Action.onSuccess shortPage))
         = KeyUndefined
      /\ hasNextPage
           (reducer (reducer initialState (Action.sort Sort.cosponsorCount))
              (Action.onSuccess shortPage))
         = false).
Proof.
  assert (Hreach :
    reachable (reducer initialState (Action.sort Sort.cosponsorCount)))
    by apply reachable_dispatch, reachable_initial.
  assert (Hshort :
    Z.of_nat (length shortPage)
    < State.billsPerPage
        (reducer initialState (Action.sort Sort.cosponsorCount)))
    by reflexivity.
  split; [split; [exact Hreach|]|split].
  - destruct (proj1 (proj2 (proj2
                (onSuccess_stores_next_cursor
                   (reducer initialState (Action.sort Sort.cosponsorCount))
                   fullPage)))
                ltac:(vm_compute; discriminate)
                ltac:(vm_compute; discriminate)
                ltac:(vm_compute; discriminate))
      as (bill & key & Hbill & Hkey & _ & Hnext & _).
    injection Hbill as <-. rewrite Hnext, Hkey. reflexivity.
  - destruct (proj1 (proj2 (proj2
                (onSuccess_stores_next_cursor
                   (reducer initialState (Action.sort Sort.latestTestimony))
                   fullPage)))
                ltac:(vm_compute; discriminate)
                ltac:(vm_compute; discriminate)
                ltac:(vm_compute; discriminate))
      as (bill & key & Hbill & Hkey & _ & Hnext & _).
    injection Hbill as <-. rewrite Hnext, Hkey. reflexivity.
  - split; [exact Hshort|].
    destruct (proj1 (proj2
                (onSuccess_stores_next_cursor
                   (reducer initialState (Action.sort Sort.cosponsorCount))
                   shortPage)) Hshort)
      as (_ & Hnext & Hhas & _).
    split; [exact Hnext|exact Hhas].
Defined.

(** C9.  [sort] with a sort mode other than the current one gives the first
    page: cursor list [[null]], page index 0, current page key [null], next
    and previous cursor [undefined], with the new sort mode; the filter, the
    page size and the error stay.  [sort] with the current sort mode returns
    the state unchanged. *)
Theorem sort_resets_to_first_page state sort :
  (sort <> State.sort state ->
   reducer state (Action.sort sort)
   = {| State.sort := sort;
        State.filter := State.filter state;
        State.pageKeys := [KeyNull];
        State.currentPageKey := KeyNull;
        State.currentPage := 0;
        State.billsPerPage := State.billsPerPage state;
        State.nextKey := KeyUndefined;
        State.previousKey := KeyUndefined;
        State.error := State.error state |})
  /\ (sort = State.sort state -> reducer state (Action.sort sort) = state).
Proof.
  split; intros Hsort; cbn; case_bool_decide; cbn; congruence || reflexivity.
Qed.

(** C9, instances: on the second page, a new sort mode and the current
    one. *)
Lemma sort_resets_to_first_page_witness :
  (Sort.testimonyCount
     <> State.sort (reducer firstPageLoaded Action.nextPage)
   /\ State.pageKeys (reducer firstPageLoaded Action.nextPage)
      = [KeyNull; Key [FString "H10"]]
   /\ State.pageKeys
        (reducer (reducer firstPageLoaded Action.nextPage)
           (Action.sort Sort.testimonyCount))
      = [KeyNull]
   /\ State.currentPage
        (reducer (reducer firstPageLoaded Action.nextPage)
           (Action.sort Sort.testimonyCount))
      = 0)
  /\ (Sort.id = State.sort (reducer firstPageLoaded Action.nextPage)
      /\ reducer (reducer firstPageLoaded Action.nextPage)
           (Action.sort Sort.id)
         = reducer firstPageLoaded Action.nextPage).
Proof.
  assert (Hne : Sort.testimonyCount
                <> State.sort (reducer firstPageLoaded Action.nextPage))
    by (vm_compute; discriminate).
  assert (Heq : Sort.id
                = State.sort (reducer firstPageLoaded Action.nextPage))
    by reflexivity.
  split.
  - split; [exact Hne|]. split; [reflexivity|].
    rewrite (proj1 (sort_resets_to_first_page _ _) Hne).
    split; reflexivity.
  - split; [exact Heq|].
    exact (proj2 (sort_resets_to_first_page _ _) Heq).
Defined.

(** C10.  Every state reachable from [initialState] by dispatching actions
    satisfies: [currentPage >= 0], [pageKeys[0]] is [null], [currentPageKey]
    is [pageKeys[currentPage]], [nextKey] is [pageKeys[currentPage + 1]] and
    [previousKey] is [pageKeys[currentPage - 1]], an index outside the list
    reading as [undefined].  Every transition of the reducer preserves these
    from any state that has them. *)
Theorem reachable_states_keep_cursors_aligned :
  invariant initialState
  /\ (forall state action, invariant state -> invariant (reducer state action))
  /\ (forall state, reachable state -> invariant state).
Proof.
  split; [exact invariant_initialState|].
  split; [exact invariant_step|].
  induction 1 as [|state action _ IH].
  - exact invariant_initialState.
  - now apply invariant_step.
Qed.

(** C10, an instance: the second page, and a short page arriving there. *)
Lemma reachable_states_keep_cursors_aligned_witness :
  reachable (reducer firstPageLoaded Action.nextPage)
  /\ invariant (reducer firstPageLoaded Action.nextPage)
  /\ invariant
       (reducer (reducer firstPageLoaded Action.nextPage)
          (Action.onSuccess shortPage)).
Proof.
  assert (Hreach : reachable (reducer firstPageLoaded Action.nextPage))
    by (apply reachable_dispatch, reachable_dispatch, reachable_initial).
  pose proof (proj2 (proj2 reachable_states_keep_cursors_aligned) _ Hreach)
    as Hinv.
  split; [exact Hreach|]. split; [exact Hinv|].
  exact (proj1 (proj2 reachable_states_keep_cursors_aligned) _ _ Hinv).
Defined.

End ReducerClaims.

(* ===================================================================== *)
(** ** Part 1, further properties of the trigger *)
(* ===================================================================== *)

Section TriggerProperties.

Implicit Types (w : World) (topic entity : Entity.t) (fields : Fields.t).

(** The documents the trigger writes when the derivation returns: those of
    all the records when every write is taken, none when one is refused. *)
Lemma publishNotifications_written topic w fields :
  outcome (createNotificationFields topic) w = Returned fields ->
  exists delivered,
    written (after (publishNotifications (Some topic)) w)
      = written w ++ map (stage fields) delivered
    /\ queries (after (publishNotifications (Some topic)) w)
       = queries w ++ issued fields
    /\ ((outcome (publishNotifications (Some topic)) w = Returned tt
         /\ delivered = combined fields w
         /\ forallb (deliverable (ignoreUndefinedProperties w) fields)
              (combined fields w) = true
         /\ batch (after (publishNotifications (Some topic)) w) = [])
        \/ (exists e,
              outcome (publishNotifications (Some topic)) w = Thrown e
              /\ delivered = []
              /\ forallb (deliverable (ignoreUndefinedProperties w) fields)
                   (combined fields w) = false)).
Proof.
  intros H.
  rewrite (createNotificationFields_outcome topic w (started topic w))
    in H by reflexivity.
  apply createNotificationFields_returned in H.
  unfold outcome, after.
  rewrite (publishNotifications_run _ _ _ H).
  destruct (forEachResult_cases (ignoreUndefinedProperties w) fields
              (combined fields w)) as [[Hr Hp]|[e He]].
  - pose proof (proj1 (forEachResult_returned _ _ _) Hr) as Hall.
    rewrite Hr, Hp. exists (combined fields w). cbn.
    split; [reflexivity|]. split; [reflexivity|]. left. now repeat split.
  - assert (Hnot : forallb (deliverable (ignoreUndefinedProperties w) fields)
                     (combined fields w) = false).
    { destruct (forallb _ _) eqn:Hall; [|reflexivity].
      apply forEachResult_returned in Hall. congruence. }
    rewrite He. exists []. cbn.
    split; [now rewrite app_nil_r|]. split; [reflexivity|]. right. eauto.
Qed.

(** The derived fields are marked as not delivered. *)
Lemma createNotificationFields_delivered entity w fields w' :
  createNotificationFields entity w = (Returned fields, w') ->
  Notification.delivered (Fields.notification fields) = false.
Proof.
  unfold createNotificationFields, switchOnType, bind, throw, ret, now, log.
  repeat case_bool_decide; repeat case_match; try congruence;
    intros [= <- <-]; simplify_eq; reflexivity.
Qed.

(** X1.  The field derivation returns exactly for an event tagged "org" and
    for an event tagged "bill" whose history is present and has a last
    entry; for every other document it throws. *)
Theorem derivation_returns_iff entity w :
  (exists fields, outcome (createNotificationFields entity) w = Returned fields)
  <-> (Entity.type entity = JSString "org"
       \/ (Entity.type entity = JSString "bill"
           /\ exists history entry,
                Entity.billHistory entity = Some history
                /\ last history = Some entry)).
Proof.
  unfold outcome, createNotificationFields, switchOnType, bind, throw, ret,
    now, log.
  split.
  - intros [fields H].
    repeat case_bool_decide; repeat case_match; simplify_eq; cbn in *;
      try discriminate; auto.
    right. split; [assumption|].
    match goal with
    | H : ?l !! _ = Some ?x |- _ => exists l, x
    end.
    split; [reflexivity|]. rewrite last_lookup.
    match goal with
    | H : ?l !! _ = Some ?x |- _ => rewrite <- H
    end.
    f_equal. lia.
  - intros [Horg|(Hbill & history & entry & Hhistory & Hlast)].
    + rewrite Horg. cbn. eauto.
    + rewrite Hbill, Hhistory. cbn.
      assert (Hlen : ~ Z.of_nat (length history) < 1).
      { destruct history; [discriminate | cbn [length]; lia]. }
      rewrite (bool_decide_eq_false_2 _ Hlen).
      rewrite last_lookup in Hlast.
      replace (Nat.pred (length history)) with (length history - 1)%nat
        in Hlast by lia.
      rewrite Hlast. cbn. eauto.
Qed.

(** X2.  What is thrown: a tag other than "bill" and "org" (a missing tag
    included) gives "Invalid entity", with a console line; a bill event with
    an empty history gives "Invalid history length: 0", with a console line;
    a bill event without a history gives a TypeError, with no console line.
    In each case the world is otherwise untouched. *)
Theorem derivation_errors entity w :
  (Entity.type entity <> JSString "bill" ->
   Entity.type entity <> JSString "org" ->
   outcome (createNotificationFields entity) w = Thrown (InvalidEntity entity)
   /\ console (after (createNotificationFields entity) w)
      = console w ++ [LogInvalidEntity entity])
  /\ (Entity.type entity = JSString "bill" ->
      Entity.billHistory entity = Some [] ->
      outcome (createNotificationFields entity) w
        = Thrown (InvalidHistoryLength 0)
      /\ console (after (createNotificationFields entity) w)
         = console w ++ [LogInvalidHistoryLength 0])
  /\ (Entity.type entity = JSString "bill" ->
      Entity.billHistory entity = None ->
      outcome (createNotificationFields entity) w = Thrown TypeError
      /\ console (after (createNotificationFields entity) w) = console w)
  /\ sameButConsole w (after (createNotificationFields entity) w).
Proof.
  unfold outcome, after, createNotificationFields, switchOnType, bind, throw,
    ret, now, log.
  repeat split; try intros H1 H2;
    repeat case_bool_decide; repeat case_match; simplify_eq; cbn in *;
    try reflexivity; try congruence; try lia.
Qed.

Lemma derivation_errors_witness :
  (Entity.type testimonyEvent <> JSString "bill"
   /\ Entity.type testimonyEvent <> JSString "org"
   /\ outcome (createNotificationFields testimonyEvent) (worldWith [])
      = Thrown (InvalidEntity testimonyEvent))
  /\ (Entity.type (BillNotification "House" "100" [] 0) = JSString "bill"
      /\ Entity.billHistory (BillNotification "House" "100" [] 0) = Some []
      /\ outcome (createNotificationFields
                    (BillNotification "House" "100" [] 0)) (worldWith [])
         = Thrown (InvalidHistoryLength 0)).
Proof.
  assert (H1 : Entity.type testimonyEvent <> JSString "bill")
    by (cbn; discriminate).
  assert (H2 : Entity.type testimonyEvent <> JSString "org")
    by (cbn; discriminate).
  split.
  - split; [exact H1|]. split; [exact H2|].
    exact (proj1 (proj1 (derivation_errors testimonyEvent (worldWith []))
                    H1 H2)).
  - split; [reflexivity|]. split; [reflexivity|].
    exact (proj1 (proj1 (proj2 (derivation_errors
                                  (BillNotification "House" "100" [] 0)
                                  (worldWith [])))
                    eq_refl eq_refl)).
Defined.





(** X5.  Every document the trigger writes carries the fields derived from
    the event, apart from [uid] and the notification's [type]: the same
    topic name, body text, header, court, id, subheader, timestamp and
    creation time; it is marked as not delivered; and the feed it is written
    to is the feed of the [uid] it carries. *)
Theorem documents_copy_the_event_fields topic w fields :
  outcome (createNotificationFields topic) w = Returned fields ->
  exists documents,
    written (after (publishNotifications (Some topic)) w)
      = written w ++ documents
    /\ forall op,
         In op documents ->
         collectionPath op = feedPath (Fields.uid (data op))
         /\ Fields.topicName (data op) = Fields.topicName fields
         /\ Fields.createdAt (data op) = Fields.createdAt fields
         /\ Notification.bodyText (Fields.notification (data op))
            = Notification.bodyText (Fields.notification fields)
         /\ Notification.header (Fields.notification (data op))
            = Notification.header (Fields.notification fields)
         /\ Notification.court (Fields.notification (data op))
            = Notification.court (Fields.notification fields)
         /\ Notification.id (Fields.notification (data op))
            = Notification.id (Fields.notification fields)
         /\ Notification.subheader (Fields.notification (data op))
            = Notification.subheader (Fields.notification fields)
         /\ Notification.timestamp (Fields.notification (data op))
            = Notification.timestamp (Fields.notification fields)
         /\ Notification.delivered (Fields.notification (data op)) = false.
Proof.
  intros H.
  destruct (publishNotifications_written _ _ _ H)
    as (delivered & Hwritten & _).
  apply createNotificationFields_returned in H.
  pose proof (createNotificationFields_delivered _ _ _ _ H) as Hdelivered.
  eexists. split; [exact Hwritten|].
  intros op Hop. apply in_map_iff in Hop as (s & <- & _).
  cbn. now repeat split.
Qed.

Lemma documents_copy_the_event_fields_witness :
  outcome (createNotificationFields billEvent) (worldWith [billSubscriber])
  = Returned
      {| Fields.topicName := "bill-House-100";
         Fields.uid := JSString "";
         Fields.notification :=
           {| Notification.bodyText := JSString "Reported favorably";
              Notification.header := JSString "100";
              Notification.court := JSString "House";
              Notification.id := JSString "100";
              Notification.subheader := JSString "House";
              Notification.timestamp := Some 0;
              Notification.type := JSString "bill";
              Notification.delivered := false |};
         Fields.createdAt := 0 |}
  /\ exists documents,
       written (after (publishNotifications (Some billEvent))
                  (worldWith [billSubscriber]))
         = [] ++ documents
       /\ forall op,
            In op documents ->
            Notification.bodyText (Fields.notification (data op))
            = JSString "Reported favorably".
Proof.
  split; [reflexivity|].
  destruct (documents_copy_the_event_fields billEvent
              (worldWith [billSubscriber]) _ eq_refl)
    as (documents & Hwritten & Hfields).
  exists documents. split; [exact Hwritten|].
  intros op Hop.
  destruct (Hfields op Hop) as (_ & _ & _ & Hbody & _). exact Hbody.
Defined.



End TriggerProperties.

(* ===================================================================== *)
(** ** Part 2, further properties of the listing *)
(* ===================================================================== *)

Section ListingProperties.

Implicit Types (state : State.t) (action : Action.t) (page : list Bill.t)
  (keys : list PageKey) (i : Z) (v : PageKey).

(** A second assignment to the same cell replaces the first. *)
Lemma assign_assign keys i v v' :
  assign (assign keys i v) i v' = assign keys i v'.
Proof.
  unfold assign. case_bool_decide as Hi; [reflexivity|]. cbv zeta.
  destruct (decide (Z.to_nat i < length keys)%nat) as [Hin|Hout].
  - rewrite !(bool_decide_eq_true_2 (Z.to_nat i < length keys)%nat)
      by assumption.
    rewrite length_insert. rewrite bool_decide_eq_true_2 by assumption.
    apply list_insert_insert_eq.
  - rewrite !(bool_decide_eq_false_2 (Z.to_nat i < length keys)%nat)
      by assumption.
    rewrite !length_app, length_replicate. cbn [length].
    rewrite bool_decide_eq_true_2 by lia.
    rewrite insert_app_r_alt by lia.
    rewrite insert_app_r_alt by (rewrite length_replicate; lia).
    rewrite length_replicate.
    now replace (Z.to_nat i - length keys - (Z.to_nat i - length keys))%nat
      with 0%nat by lia.
Qed.

Lemma index_singleton_ge v i : 1 <= i -> index [v] i = KeyUndefined.
Proof.
  intros H. rewrite index_nonnegative by lia.
  destruct (Z.to_nat i) as [|n] eqn:E; [lia|reflexivity].
Qed.

(** The first page has its cursors known. *)
Lemma cursorsKnown_initialPage sort filter billsPerPage error :
  cursorsKnown
    {| State.sort := sort;
       State.filter := filter;
       State.pageKeys := initialPage_pageKeys;
       State.currentPageKey := initialPage_currentPageKey;
       State.currentPage := initialPage_currentPage;
       State.billsPerPage := billsPerPage;
       State.nextKey := initialPage_nextKey;
       State.previousKey := initialPage_previousKey;
       State.error := error |}.
Proof.
  split; cbn; unfold initialPage_currentPage, initialPage_pageKeys.
  - intros i Hi. replace i with 0 by lia. discriminate.
  - intros i Hi. left. now apply index_singleton_ge.
Qed.

Lemma cursorsKnown_step state action :
  invariant state -> cursorsKnown state ->
  cursorsKnown (reducer state action).
Proof.
  intros (Hpage & _) [Hknown Hkeys].
  destruct action as [| |sort|filter|page|error]; cbn.
  - case_bool_decide as Hkey; cbn; [now split|].
    split; cbn; [|exact Hkeys].
    intros i Hi.
    destruct (decide (i = State.currentPage state + 1)) as [->|Hne];
      [exact Hkey|apply Hknown; lia].
  - case_bool_decide as Hkey; cbn; [now split|].
    split; cbn; [|exact Hkeys].
    intros i Hi. apply Hknown. lia.
  - case_bool_decide; cbn; [now split|apply cursorsKnown_initialPage].
  - apply cursorsKnown_initialPage.
  - split; cbn.
    + intros i Hi. rewrite index_assign_ne by lia. now apply Hknown.
    + intros i Hi.
      destruct (decide (i = State.currentPage state + 1)) as [->|Hne].
      * rewrite index_assign_eq by lia.
        destruct (lodash.nth page (State.billsPerPage state - 1)); eauto.
      * rewrite index_assign_ne by congruence. now apply Hkeys.
  - now split.
Qed.

Lemma reachable_cursorsKnown state :
  reachable state -> invariant state /\ cursorsKnown state.
Proof.
  induction 1 as [|state action _ [IHinv IHknown]].
  - split; [exact invariant_initialState|].
    apply (cursorsKnown_initialPage Sort.id None 10 None).
  - split; [now apply invariant_step|now apply cursorsKnown_step].
Qed.

(** The moves of [nextPage] and [previousPage] when the cursor is there. *)
Lemma nextPage_known_cursor state :
  index (State.pageKeys state) (State.currentPage state + 1) <> KeyUndefined ->
  reducer state Action.nextPage
  = {| State.sort := State.sort state;
       State.filter := State.filter state;
       State.pageKeys := State.pageKeys state;
       State.currentPageKey :=
         index (State.pageKeys state) (State.currentPage state + 1);
       State.currentPage := State.currentPage state + 1;
       State.billsPerPage := State.billsPerPage state;
       State.nextKey :=
         index (State.pageKeys state) (State.currentPage state + 1 + 1);
       State.previousKey :=
         index (State.pageKeys state) (State.currentPage state + 1 - 1);
       State.error := State.error state |}.
Proof. intros Hkey. cbn. now rewrite (bool_decide_eq_false_2 _ Hkey). Qed.

Lemma previousPage_known_cursor state :
  index (State.pageKeys state) (State.currentPage state - 1) <> KeyUndefined ->
  reducer state Action.previousPage
  = {| State.sort := State.sort state;
       State.filter := State.filter state;
       State.pageKeys := State.pageKeys state;
       State.currentPageKey :=
         index (State.pageKeys state) (State.currentPage state - 1);
       State.currentPage := State.currentPage state - 1;
       State.billsPerPage := State.billsPerPage state;
       State.nextKey :=
         index (State.pageKeys state) (State.currentPage state - 1 + 1);
       State.previousKey :=
         index (State.pageKeys state) (State.currentPage state - 1 - 1);
       State.error := State.error state |}.
Proof.
  intros Hkey. cbn.
  change (State.currentPage state + -1) with (State.currentPage state - 1).
  now rewrite (bool_decide_eq_false_2 _ Hkey).
Qed.

(** X7.  In every reachable state the current page key is never
    [undefined], and it is [null] exactly on the first page; a previous
    page is on offer exactly when the page index is above 0; the page shown
    to the user is at least 1; and the cursor list is longer than the page
    index. *)
Theorem reachable_position_is_consistent state :
  reachable state ->
  State.currentPageKey state <> KeyUndefined
  /\ (State.currentPageKey state = KeyNull <-> State.currentPage state = 0)
  /\ (hasPreviousPage state = true <-> 0 < State.currentPage state)
  /\ 1 <= displayedPage state
  /\ State.currentPage state < Z.of_nat (length (State.pageKeys state)).
Proof.
  intros Hreach.
  destruct (reachable_cursorsKnown _ Hreach)
    as [(Hpage & Hfirst & Hcurrent & _ & Hprevious) [Hknown Hkeys]].
  assert (Hdefined : State.currentPageKey state <> KeyUndefined).
  { rewrite Hcurrent. apply Hknown. lia. }
  split; [exact Hdefined|]. split; [|split; [|split]].
  - split.
    + intros Hnull.
      destruct (decide (State.currentPage state = 0)) as [|Hne]; [assumption|].
      destruct (Hkeys (State.currentPage state)) as [Hu|[bill Hk]];
        [lia|congruence|congruence].
    + intros Hzero. rewrite Hcurrent, Hzero. exact Hfirst.
  - unfold hasPreviousPage. rewrite Hprevious. split.
    + intros Hhas.
      destruct (decide (0 < State.currentPage state)) as [|Hle]; [assumption|].
      rewrite index_negative in Hhas by lia.
      now rewrite bool_decide_eq_true_2 in Hhas.
    + intros Hpos. rewrite bool_decide_eq_false_2; [reflexivity|].
      apply Hknown. lia.
  - unfold displayedPage. lia.
  - rewrite Hcurrent in Hdefined.
    apply index_defined_in_range in Hdefined. lia.
Qed.

Lemma reachable_position_is_consistent_witness :
  reachable (reducer firstPageLoaded Action.nextPage)
  /\ hasPreviousPage (reducer firstPageLoaded Action.nextPage) = true
  /\ displayedPage (reducer firstPageLoaded Action.nextPage) = 2.
Proof.
  assert (Hreach : reachable (reducer firstPageLoaded Action.nextPage))
    by (apply reachable_dispatch, reachable_dispatch, reachable_initial).
  split; [exact Hreach|].
  destruct (reachable_position_is_consistent _ Hreach)
    as (_ & _ & Hprevious & _).
  split; [|reflexivity].
  apply Hprevious. vm_compute. reflexivity.
Defined.

(** X8.  In a reachable state that offers a next page, going to the next
    page and then to the previous one gives the state back. *)
Theorem next_then_previous state :
  reachable state ->
  hasNextPage state = true ->
  reducer (reducer state Action.nextPage) Action.previousPage = state.
Proof.
  intros Hreach Hnext.
  destruct (reachable_cursorsKnown _ Hreach)
    as [(Hpage & _ & Hcurrent & Hnextkey & Hprevious) [Hknown _]].
  unfold hasNextPage in Hnext. apply negb_true_iff in Hnext.
  apply bool_decide_eq_false in Hnext. rewrite Hnextkey in Hnext.
  assert (Hback : index (State.pageKeys state) (State.currentPage state)
                  <> KeyUndefined) by (apply Hknown; lia).
  rewrite (nextPage_known_cursor _ Hnext).
  rewrite previousPage_known_cursor; cbn [State.pageKeys State.currentPage];
    replace (State.currentPage state + 1 - 1) with (State.currentPage state)
      by lia; [|exact Hback].
  destruct state as [sort filter keys key current size next previous error].
  cbn in *. now rewrite <- Hcurrent, <- Hnextkey, <- Hprevious.
Qed.

Lemma next_then_previous_witness :
  reachable firstPageLoaded
  /\ hasNextPage firstPageLoaded = true
  /\ reducer (reducer firstPageLoaded Action.nextPage) Action.previousPage
     = firstPageLoaded.
Proof.
  assert (Hreach : reachable firstPageLoaded)
    by (apply reachable_dispatch, reachable_initial).
  split; [exact Hreach|]. split; [reflexivity|].
  exact (next_then_previous firstPageLoaded Hreach eq_refl).
Defined.

(** X9.  In a reachable state past the first page, going to the previous
    page always moves, and coming back with [nextPage] gives the state
    back. *)
Theorem previous_then_next state :
  reachable state ->
  0 < State.currentPage state ->
  State.currentPage (reducer state Action.previousPage)
    = State.currentPage state - 1
  /\ reducer (reducer state Action.previousPage) Action.nextPage = state.
Proof.
  intros Hreach Hpos.
  destruct (reachable_cursorsKnown _ Hreach)
    as [(Hpage & _ & Hcurrent & Hnextkey & Hprevious) [Hknown _]].
  assert (Hback : index (State.pageKeys state) (State.currentPage state - 1)
                  <> KeyUndefined) by (apply Hknown; lia).
  assert (Hhere : index (State.pageKeys state) (State.currentPage state)
                  <> KeyUndefined) by (apply Hknown; lia).
  rewrite (previousPage_known_cursor _ Hback).
  split; [reflexivity|].
  rewrite nextPage_known_cursor; cbn [State.pageKeys State.currentPage];
    replace (State.currentPage state - 1 + 1) with (State.currentPage state)
      by lia; [|exact Hhere].
  destruct state as [sort filter keys key current size next previous error].
  cbn in *. now rewrite <- Hcurrent, <- Hnextkey, <- Hprevious.
Qed.

Lemma previous_then_next_witness :
  reachable (reducer firstPageLoaded Action.nextPage)
  /\ 0 < State.currentPage (reducer firstPageLoaded Action.nextPage)
  /\ reducer (reducer (reducer firstPageLoaded Action.nextPage)
                Action.previousPage) Action.nextPage
     = reducer firstPageLoaded Action.nextPage.
Proof.
  assert (Hreach : reachable (reducer firstPageLoaded Action.nextPage))
    by (apply reachable_dispatch, reachable_dispatch, reachable_initial).
  assert (Hpos : 0 < State.currentPage (reducer firstPageLoaded Action.nextPage))
    by reflexivity.
  split; [exact Hreach|]. split; [exact Hpos|].
  exact (proj2 (previous_then_next _ Hreach Hpos)).
Defined.

(** X10.  Of two pages that arrive one after the other in the same
    position, the later one decides: the state is the one the later page
    alone would give.  In particular a page that arrives twice changes
    nothing the second time. *)
Theorem later_page_overwrites state page page' :
  reducer (reducer state (Action.onSuccess page)) (Action.onSuccess page')
    = reducer state (Action.onSuccess page')
  /\ reducer (reducer state (Action.onSuccess page)) (Action.onSuccess page)
     = reducer state (Action.onSuccess page).
Proof.
  split; cbn; now rewrite assign_assign.
Qed.

(** X11.  The error is never cleared.  The [error] action stores its error
    and changes nothing else, so the position is kept; no other action
    touches the stored error; hence once an error is stored, every later
    state has one, whatever is dispatched. *)
Theorem error_is_never_cleared state :
  (forall e,
     State.error (reducer state (Action.error e)) = Some e
     /\ State.currentPage (reducer state (Action.error e))
        = State.currentPage state
     /\ State.currentPageKey (reducer state (Action.error e))
        = State.currentPageKey state
     /\ State.pageKeys (reducer state (Action.error e))
        = State.pageKeys state
     /\ State.nextKey (reducer state (Action.error e)) = State.nextKey state
     /\ State.previousKey (reducer state (Action.error e))
        = State.previousKey state
     /\ State.sort (reducer state (Action.error e)) = State.sort state
     /\ State.filter (reducer state (Action.error e)) = State.filter state)
  /\ (forall action,
        (forall e, action <> Action.error e) ->
        State.error (reducer state action) = State.error state)
  /\ (forall actions,
        State.error state <> None ->
        State.error (dispatchAll state actions) <> None).
Proof.
  assert (Hstep : forall s action,
            (forall e, action <> Action.error e) ->
            State.error (reducer s action) = State.error s).
  { intros s action Hother.
    destruct action; cbn; try reflexivity;
      try (case_bool_decide; reflexivity).
    now destruct (Hother error). }
  split; [now repeat split|]. split; [apply Hstep|].
  intros actions. revert state.
  induction actions as [|action actions IH]; intros state Hsome;
    [exact Hsome|].
  cbn. apply IH.
  destruct action; try (rewrite Hstep by discriminate; exact Hsome).
  cbn. discriminate.
Qed.

Lemma error_is_never_cleared_witness :
  State.error (reducer initialState (Action.error "offline")) <> None
  /\ State.error
       (dispatchAll (reducer initialState (Action.error "offline"))
          [Action.onSuccess fullPage; Action.nextPage;
           Action.sort Sort.testimonyCount; Action.filter None])
     = Some "offline".
Proof.
  assert (H : State.error (reducer initialState (Action.error "offline"))
              <> None) by (cbn; discriminate).
  split; [exact H|].
  pose proof (proj2 (proj2 (error_is_never_cleared _))
                [Action.onSuccess fullPage; Action.nextPage;
                 Action.sort Sort.testimonyCount; Action.filter None] H)
    as Hkept.
  destruct (State.error (dispatchAll _ _)) as [e|] eqn:E;
    [|now destruct Hkept].
  vm_compute in E. congruence.
Defined.

(** The arguments of the query end with the limit and the start-after
    cursor, when there is one. *)
Lemma listBills_built sort filter limitCount key :
  key <> KeyUndefined ->
  exists constraints,
    listBills sort filter limitCount key = Some constraints
    /\ In (Some (QLimit limitCount)) constraints
    /\ last constraints
       = Some (match key with
               | Key fieldValues => Some (QStartAfter fieldValues)
               | _ => None
               end).
Proof.
  intros Hkey. unfold listBills.
  destruct key as [| |fieldValues]; [congruence| |];
    (eexists; split; [reflexivity|]; split;
     [apply in_or_app; right; apply in_or_app; right; now left
     |now rewrite !last_app]).
Qed.

(** X12.  [filter] goes back to the first page from any state, also when
    the filter given is the one already in force (unlike [sort]); it keeps
    the sort mode and the page size.  In the state it gives, and in the
    state a changed sort mode gives, no next or previous page is on offer,
    [nextPage] and [previousPage] do nothing, and the query that [useBills]
    makes has no start-after cursor. *)
Theorem reset_leaves_nowhere_to_go state filter sort :
  (State.currentPage (reducer state (Action.filter filter)) = 0
   /\ State.pageKeys (reducer state (Action.filter filter)) = [KeyNull]
   /\ State.filter (reducer state (Action.filter filter)) = filter
   /\ State.sort (reducer state (Action.filter filter)) = State.sort state
   /\ State.billsPerPage (reducer state (Action.filter filter))
      = State.billsPerPage state)
  /\ (forall state',
        state' = reducer state (Action.filter filter)
        \/ (sort <> State.sort state
            /\ state' = reducer state (Action.sort sort)) ->
        hasNextPage state' = false
        /\ hasPreviousPage state' = false
        /\ reducer state' Action.nextPage = state'
        /\ reducer state' Action.previousPage = state'
        /\ exists constraints,
             useBills_listBills state' = Some constraints
             /\ last constraints = Some None).
Proof.
  split; [now repeat split|].
  assert (Hquery : forall s f n,
            exists constraints,
              listBills s f n KeyNull = Some constraints
              /\ last constraints = Some None).
  { intros s f n.
    destruct (listBills_built s f n KeyNull) as (cs & Hcs & _ & Hlast);
      [discriminate|eauto]. }
  intros state' [->|[Hsort ->]].
  - cbn. repeat split. apply Hquery.
  - cbn. rewrite bool_decide_eq_false_2 by exact Hsort. cbn.
    repeat split. apply Hquery.
Qed.

(** X13.  The page key follows the order clauses: for every sort mode the
    key of a bill lists, in order, the bill's values of the fields that
    [getOrderBy] orders by.  Every ordering ends with the [id] field in the
    default direction and has [desc] on every clause before it, and never
    names a field twice; so every page key ends with the bill's id. *)
Theorem page_key_follows_order_clauses bill sort :
  getPageKey bill sort
    = map (fun o => billField bill (fst o)) (getOrderBy sort)
  /\ last (getOrderBy sort) = Some ("id", None)
  /\ last (getPageKey bill sort) = Some (FString (Bill.id bill))
  /\ (forall o, In o (getOrderBy sort) ->
        fst o <> "id" -> snd o = Some desc)
  /\ NoDup (map fst (getOrderBy sort)).
Proof.
  split; [now destruct sort|]. split; [now destruct sort|].
  split; [now destruct sort|]. split.
  - intros o Ho Hid. destruct sort; cbn in Ho;
      repeat (destruct Ho as [<-|Ho]; [cbn in *; congruence|]);
      now destruct Ho.
  - destruct sort; apply (bool_decide_unpack _); vm_compute; exact I.
Qed.

(** X14.  The order-by constraints of [listBills].  With no filter, or a
    filter that is not on the bill id, they are the clauses of [getOrderBy],
    as many as a page key has values.  With a filter on the bill id the
    [id] clause is gone and the others stay, so there is one clause fewer
    than a page key has values, and none at all when sorting by id. *)
Theorem order_by_constraints sort filter bill :
  ((forall id, filter <> Some (Filter.bill id)) ->
   orderByConstraints sort filter
     = map (fun o => QOrderBy (fst o) (snd o)) (getOrderBy sort)
   /\ length (orderByConstraints sort filter)
      = length (getPageKey bill sort))
  /\ (forall id direction,
        ~ In (QOrderBy "id" direction)
             (orderByConstraints sort (Some (Filter.bill id))))
  /\ (forall id,
        orderByConstraints sort (Some (Filter.bill id))
          ++ [QOrderBy "id" None]
        = map (fun o => QOrderBy (fst o) (snd o)) (getOrderBy sort))
  /\ (forall id,
        S (length (orderByConstraints sort (Some (Filter.bill id))))
        = length (getPageKey bill sort))
  /\ (forall id, orderByConstraints Sort.id (Some (Filter.bill id)) = []).
Proof.
  split; [|split; [|split; [|split]]].
  - intros Hfilter.
    destruct filter as [[id| | |]|]; try (now destruct (Hfilter id));
      destruct sort; now split.
  - intros id direction Hin. destruct sort; cbn in Hin;
      repeat (destruct Hin as [Hin|Hin]; [discriminate|]); assumption.
  - intros id. now destruct sort.
  - intros id. now destruct sort.
  - reflexivity.
Qed.

Lemma order_by_constraints_witness :
  (forall id, Some (Filter.city "Boston") <> Some (Filter.bill id))
  /\ orderByConstraints Sort.cosponsorCount (Some (Filter.city "Boston"))
     = [QOrderBy "cosponsorCount" (Some desc); QOrderBy "id" None]
  /\ orderByConstraints Sort.cosponsorCount (Some (Filter.bill "H1"))
     = [QOrderBy "cosponsorCount" (Some desc)].
Proof.
  assert (H : forall id, Some (Filter.city "Boston") <> Some (Filter.bill id))
    by discriminate.
  split; [exact H|]. split; [|reflexivity].
  exact (proj1 (proj1 (order_by_constraints Sort.cosponsorCount
                         (Some (Filter.city "Boston")) (billWithId "H1")) H)).
Defined.

(** X15.  Every filter becomes an equality constraint, and two different
    filters never become the same constraint: the filter can be read back
    from the field path and the value. *)
Theorem getFilter_injective filter filter' :
  getFilter filter = getFilter filter' ->
  filter = filter' /\ snd (fst (getFilter filter)) = "==".
Proof.
  destruct filter, filter'; cbn; intros H; simplify_eq; now split.
Qed.

Lemma getFilter_injective_witness :
  getFilter (Filter.committee "J10") = ("currentCommittee.id", "==", "J10")
  /\ Filter.committee "J10" = Filter.committee "J10".
Proof.
  split; [reflexivity|].
  exact (proj1 (getFilter_injective (Filter.committee "J10")
                  (Filter.committee "J10") eq_refl)).
Defined.

(** X16.  In every reachable state the query that [useBills] makes can be
    built (its start key is never [undefined]) and asks for 10 bills.  On
    the first page it has no start-after cursor.  On a later page it starts
    after a page key taken from some bill under the sort mode now in force:
    cursors stored under another sort mode are never used. *)
Theorem reachable_query state :
  reachable state ->
  exists constraints,
    useBills_listBills state = Some constraints
    /\ In (Some (QLimit 10)) constraints
    /\ (State.currentPage state = 0 -> last constraints = Some None)
    /\ (0 < State.currentPage state ->
        exists bill,
          last constraints
          = Some (Some (QStartAfter (getPageKey bill (State.sort state))))).
Proof.
  intros Hreach.
  destruct (reachable_cursorsKnown _ Hreach)
    as [(Hpage & Hfirst & Hcurrent & _) [Hknown Hkeys]].
  pose proof (reachable_billsPerPage _ Hreach) as Hsize.
  assert (Hdefined : State.currentPageKey state <> KeyUndefined).
  { rewrite Hcurrent. apply Hknown. lia. }
  destruct (listBills_built (State.sort state) (State.filter state)
              (State.billsPerPage state) _ Hdefined)
    as (constraints & Hbuilt & Hlimit & Hlast).
  exists constraints. split; [exact Hbuilt|].
  split; [now rewrite <- Hsize|]. rewrite Hlast. split.
  - intros Hzero. rewrite Hcurrent, Hzero, Hfirst. reflexivity.
  - intros Hpos.
    destruct (Hkeys (State.currentPage state)) as [Hu|[bill Hk]];
      [lia|congruence|].
    exists bill. now rewrite Hcurrent, Hk.
Qed.

Lemma reachable_query_witness :
  reachable (reducer firstPageLoaded Action.nextPage)
  /\ useBills_listBills (reducer firstPageLoaded Action.nextPage)
     = Some [None; Some (QOrderBy "id" None); Some (QLimit 10);
             Some (QStartAfter [FString "H10"])]
  /\ exists constraints,
       useBills_listBills (reducer firstPageLoaded Action.nextPage)
         = Some constraints
       /\ In (Some (QLimit 10)) constraints.
Proof.
  assert (Hreach : reachable (reducer firstPageLoaded Action.nextPage))
    by (apply reachable_dispatch, reachable_dispatch, reachable_initial).
  split; [exact Hreach|]. split; [reflexivity|].
  destruct (reachable_query _ Hreach) as (constraints & Hq & Hlimit & _).
  exists constraints. split; [exact Hq|exact Hlimit].
Defined.

End ListingProperties.

(* ===================================================================== *)
(** ** Part 3, properties of the role script *)
(* ===================================================================== *)

Section SplitProperties.

Implicit Types (email a b : string) (pieces : list string).

Lemma split_nonempty email : split email <> [].
Proof.
  destruct email as [|c rest]; cbn; [discriminate|].
  destruct (Ascii.eqb c " "); [discriminate|].
  destruct (split rest); discriminate.
Qed.

Lemma split_space rest : split (String " " rest) = "" :: split rest.
Proof. reflexivity. Qed.

Lemma concat_cons_nonempty sep piece pieces :
  pieces <> [] ->
  String.concat sep (piece :: pieces)
  = piece +:+ sep +:+ String.concat sep pieces.
Proof. destruct pieces; [congruence|reflexivity]. Qed.

(** X17.  Joining the pieces with single spaces gives the address list
    back; there is one piece more than there are spaces, so there is always
    at least one piece, and no piece contains a space. *)
Theorem split_join email :
  String.concat " " (split email) = email
  /\ length (split email) = S (spaces email)
  /\ Forall (fun piece => spaces piece = 0%nat) (split email).
Proof.
  induction email as [|c rest (IHjoin & IHlen & IHfree)]; cbn.
  - repeat split. repeat constructor.
  - destruct (Ascii.eqb c " ") eqn:Hc.
    + apply Ascii.eqb_eq in Hc. subst c. split; [|split].
      * rewrite concat_cons_nonempty by apply split_nonempty.
        cbn. now rewrite IHjoin.
      * cbn. now rewrite IHlen.
      * constructor; [reflexivity|exact IHfree].
    + destruct (split rest) as [|piece pieces] eqn:Hsplit;
        [now destruct (split_nonempty rest)|].
      split; [|split].
      * destruct pieces as [|piece' pieces]; cbn in *; now rewrite <- IHjoin.
      * cbn in *. exact IHlen.
      * inversion IHfree as [|? ? Hpiece Hpieces]; subst.
        constructor; [cbn; now rewrite Hc|exact Hpieces].
Qed.

(** X18.  Splitting is the inverse of joining: for a non-empty list of
    pieces without spaces, splitting their join gives the same pieces. *)
Theorem split_of_join pieces :
  pieces <> [] ->
  Forall (fun piece => spaces piece = 0%nat) pieces ->
  split (String.concat " " pieces) = pieces.
Proof.
  intros Hne Hfree. induction Hfree as [|piece pieces Hpiece Hfree IH];
    [congruence|].
  destruct pieces as [|piece' pieces].
  - cbn. clear IH Hne Hfree.
    induction piece as [|c piece IHpiece]; [reflexivity|].
    cbn in *. destruct (Ascii.eqb c " "); [discriminate|].
    now rewrite IHpiece.
  - rewrite concat_cons_nonempty by discriminate.
    specialize (IH ltac:(discriminate)).
    remember (String.concat " " (piece' :: pieces)) as joined.
    clear Heqjoined Hne Hfree.
    induction piece as [|c piece IHpiece].
    + change (split (String " " joined) = "" :: piece' :: pieces).
      rewrite split_space. now rewrite IH.
    + cbn in Hpiece.
      change (split (String c (piece +:+ " " +:+ joined))
              = String c piece :: piece' :: pieces).
      cbn [split]. destruct (Ascii.eqb c " "); [discriminate|].
      now rewrite IHpiece.
Qed.

Lemma split_of_join_witness :
  ["a@x.org"; "b@y.org"] <> []
  /\ Forall (fun piece => spaces piece = 0%nat) ["a@x.org"; "b@y.org"]
  /\ split "a@x.org b@y.org" = ["a@x.org"; "b@y.org"].
Proof.
  assert (Hne : ["a@x.org"; "b@y.org"] <> []) by discriminate.
  assert (Hfree : Forall (fun piece => spaces piece = 0%nat)
                    ["a@x.org"; "b@y.org"])
    by (repeat constructor).
  split; [exact Hne|]. split; [exact Hfree|].
  exact (split_of_join _ Hne Hfree).
Defined.

(** X19.  Splitting distributes over a space: the pieces of [a], a space,
    [b] are the pieces of [a] followed by the pieces of [b].  Leading,
    trailing and doubled spaces therefore give empty pieces. *)
Theorem split_app a b :
  split (a +:+ " " +:+ b) = split a ++ split b
  /\ split (" " +:+ b) = "" :: split b
  /\ split (a +:+ " ") = split a ++ [""]
  /\ split (a +:+ "  " +:+ b) = split a ++ "" :: split b.
Proof.
  assert (Happ : forall a b, split (a +:+ " " +:+ b) = split a ++ split b).
  { clear a b. intros a b. induction a as [|c a IH]; [reflexivity|].
    change (split (String c (a +:+ " " +:+ b))
            = split (String c a) ++ split b).
    cbn [split]. rewrite IH.
    destruct (Ascii.eqb c " "); [reflexivity|].
    destruct (split a) as [|piece pieces] eqn:Hsplit;
      [now destruct (split_nonempty a)|reflexivity]. }
  split; [apply Happ|]. split; [reflexivity|]. split.
  - apply (Happ a "").
  - apply (Happ a (" " +:+ b)).
Qed.

End SplitProperties.

Section ScriptProperties.

Context {Role Auth Store Failure : Type}.
Variable setRole : string -> Role -> Auth -> Store -> option Failure * Store.

Implicit Types (auth : Auth) (role : Role) (store : Store) (a b : string).

Lemma forEmails_app emails emails' role auth store :
  forEmails setRole (emails ++ emails') role auth store
  = match forEmails setRole emails role auth store with
    | (None, store') => forEmails setRole emails' role auth store'
    | (Some failure, store') => (Some failure, store')
    end.
Proof.
  revert store. induction emails as [|email emails IH]; intros store;
    [reflexivity|].
  cbn. destruct (setRole email role auth store) as [[failure|] store'];
    [reflexivity|apply IH].
Qed.

(** X20.  The script on two address lists joined by a space runs the
    script on the first and then, if that did not throw, on the second in
    the store the first left; when the first throws, the second is never
    started.  On an address without spaces it is a single [setRole]. *)
Theorem script_app auth a b role store :
  script setRole auth (a +:+ " " +:+ b) role store
    = match script setRole auth a role store with
      | (None, store') => script setRole auth b role store'
      | (Some failure, store') => (Some failure, store')
      end
  /\ (spaces a = 0%nat ->
      script setRole auth a role store = setRole a role auth store).
Proof.
  split.
  - unfold script.
    destruct (split_app a b) as (Happ & _). rewrite Happ.
    apply forEmails_app.
  - intros Hfree. unfold script.
    replace (split a) with [a]; cbn.
    + now destruct (setRole a role auth store) as [[failure|] store'].
    + symmetry. apply (split_of_join [a]); [discriminate|].
      now repeat constructor.
Qed.

End ScriptProperties.

(** X20, instances: three addresses, the second of which is refused; the
    third is never given its role. *)
Lemma script_app_witness :
  script recordRole tt "a@x.org nobody c@z.org" true []
    = (Some "no such user", [("a@x.org", true)])
  /\ spaces "a@x.org" = 0%nat
  /\ script recordRole tt "a@x.org" true [] = recordRole "a@x.org" true tt [].
Proof.
  split; [|split; [reflexivity|]].
  - exact (eq_trans
             (proj1 (script_app recordRole tt "a@x.org" "nobody c@z.org"
                       true []))
             eq_refl).
  - exact (proj2 (script_app recordRole tt "a@x.org" "" true []) eq_refl).
Defined.
